(** * Offline synchronisation engine of collab-space

    A shallow embedding of
    - [backend/src/modules/sync/service/sync.service.ts] (class [SyncService]),
    - [frontend/src/hooks/useSyncStatus.ts] (the [triggerSync] cycle),
    - [frontend/src/hooks/useNetworkStatus.ts] (the [retryConnection] loop),
    together with the properties of the synchronisation protocol that are
    stated in the specification.

    Conventions of the model.
    - Every [async] method of the service is a computation in the monad [M]:
      it threads the database and may throw.  A thrown exception does not
      undo the writes made before it (the service opens no transaction).
    - One call of a service method runs without interleaving with another
      call.
    - The database is reachable: reads never throw, writes throw exactly
      when the model delegate says so.
    - [new Date()], [crypto.randomUUID()] and the md5 of [JSON.stringify]
      are oracles of the runtime ([Runtime]). *)

From Stdlib Require Import ZArith Lia DecimalString.
From stdpp Require Import base strings list gmap.
From Equations Require Import Equations.

Set Warnings "-register-all".
Local Open Scope Z_scope.

(** ** JSON payloads ([data: any]) *)

Inductive json : Type :=
| JNull
| JBool (b : bool)
| JNum (n : Z)
| JStr (s : string)
| JDate (t : Z)
| JArr (items : list json)
| JObj (fields : list (string * json)).

(** A JavaScript object literal: an insertion-ordered list of properties. *)
Abbreviation jobject := (list (string * json)).

(** JavaScript truthiness, as used by [!mergedData] and [data && ...]. *)
Definition truthy (v : json) : bool :=
  match v with
  | JNull => false
  | JBool b => b
  | JNum n => negb (n =? 0)
  | JStr s => negb (String.eqb s "")
  | JDate _ | JArr _ | JObj _ => true
  end.

(** Property lookup on an object. *)
Fixpoint obj_get (k : string) (o : jobject) : option json :=
  match o with
  | [] => None
  | (k', v) :: o' => if String.eqb k k' then Some v else obj_get k o'
  end.

(** [o[k] = v]: an existing property keeps its place, a new one is added
    last. *)
Fixpoint obj_set (k : string) (v : json) (o : jobject) : jobject :=
  match o with
  | [] => [(k, v)]
  | (k', v') :: o' =>
      if String.eqb k k' then (k, v) :: o' else (k', v') :: obj_set k v o'
  end.

(** [delete o[k]]. *)
Definition obj_delete (k : string) (o : jobject) : jobject :=
  filter (λ kv, negb (String.eqb k kv.1) = true) o.

Definition index_key (i : nat) : string :=
  NilEmpty.string_of_uint (Nat.to_uint i).

Fixpoint indexed {A} (f : A → json) (i : nat) (xs : list A) : jobject :=
  match xs with
  | [] => []
  | x :: xs' => (index_key i, f x) :: indexed f (S i) xs'
  end.

(** The own enumerable properties copied by [{...v}]. *)
Definition spread (v : json) : jobject :=
  match v with
  | JObj o => o
  | JArr xs => indexed id 0 xs
  | JStr s => indexed (λ c, JStr (String c EmptyString)) 0 (String.list_ascii_of_string s)
  | JNull | JBool _ | JNum _ | JDate _ => []
  end.

(** [{...base, k1: v1, ..., kn: vn}]. *)
Definition obj_literal (base : jobject) (props : jobject) : jobject :=
  foldl (λ o kv, obj_set kv.1 kv.2 o) base props.

(** [latestRecord?.version || 0]: [undefined] and [0] both give [0]. *)
Definition or_zero (v : option Z) : Z :=
  match v with
  | Some n => if n =? 0 then 0 else n
  | None => 0
  end.

(** ** Exceptions *)

(** What a [catch (error)] clause may receive: an [Error] instance with its
    message, or any other thrown value. *)
Inductive thrown : Type :=
| ErrorObj (message : string)
| NonError.

Inductive result (A : Type) : Type :=
| Ok (a : A)
| Throw (e : thrown).
Arguments Ok {A} a.
Arguments Throw {A} e.

(** ** sync.types.ts *)

Record SyncRecord := {
  rec_id : string;
  rec_entityType : string;
  rec_entityId : string;
  rec_action : string;
  rec_data : json;
  rec_timestamp : Z;
  rec_userId : string;
  rec_version : Z;
}.

Record SyncToken := {
  tok_userId : string;
  tok_lastSyncTimestamp : Z;
  tok_entityVersions : gmap string Z;
}.

Record PullRequest := {
  pull_lastSyncTimestamp : option Z;
  pull_entityTypes : option (list string);
  pull_limit : option nat;
}.

Record PullResponse := {
  pull_records : list SyncRecord;
  pull_syncToken : SyncToken;
  pull_hasMore : bool;
  pull_serverTimestamp : Z;
}.

Record PushRequest := {
  push_records : list SyncRecord;
  push_syncToken : SyncToken;
}.

Record ConflictData := {
  serverVersion : Z;
  clientVersion : Z;
  serverData : json;
  clientData : json;
}.

Record Rejection := {
  rej_id : string;
  rej_reason : string;
  rej_conflictData : option ConflictData;
}.

Record PushResponse := {
  push_accepted : list string;
  push_rejected : list Rejection;
  push_newSyncToken : SyncToken;
  push_serverTimestamp : Z;
}.

Record ConflictResolution := {
  res_recordId : string;
  res_strategy : string;
  res_mergedData : option json;
}.

Record SyncStatus := {
  st_userId : string;
  st_lastSyncTimestamp : Z;
  st_pendingChanges : Z;
  st_isOnline : bool;
  st_syncInProgress : bool;
}.

(** [enum SyncEntityType] *)
Definition USER := "user".
Definition TASK := "task".
Definition PROJECT := "project".
Definition MESSAGE := "message".
Definition FILE := "file".

Record EntitySyncConfig := {
  cfg_entityType : string;
  cfg_tableName : string;
  cfg_includes : option (list string);
  cfg_excludeFields : option (list string);
  cfg_softDelete : option bool;
}.

(** ** The [sync_logs] table (the audit log) *)

Record SyncLog := {
  log_id : string;
  log_entityType : string;
  log_entityId : string;
  log_action : string;
  log_data : json;
  log_userId : string;
  log_timestamp : Z;
  log_version : Z;
  log_checksum : option string;
}.

(** [findFirst({ orderBy: { key: 'desc' } })] over the selected rows: a row
    with the greatest key (the earliest inserted one among equals). *)
Fixpoint first_desc (key : SyncLog → Z) (rows : list SyncLog) : option SyncLog :=
  match rows with
  | [] => None
  | r :: rows' =>
      match first_desc key rows' with
      | Some r' => if key r <? key r' then Some r' else Some r
      | None => Some r
      end
  end.

(** [orderBy: { key: 'asc' }]: a stable insertion sort. *)
Fixpoint insert_asc (key : SyncLog → Z) (r : SyncLog) (rows : list SyncLog) : list SyncLog :=
  match rows with
  | [] => [r]
  | r' :: rows' =>
      if key r' <=? key r then r' :: insert_asc key r rows' else r :: r' :: rows'
  end.

Definition order_asc (key : SyncLog → Z) (rows : list SyncLog) : list SyncLog :=
  foldl (λ sorted r, insert_asc key r sorted) [] rows.

Definition where_entity (entityType entityId : string) (r : SyncLog) : bool :=
  String.eqb (log_entityType r) entityType && String.eqb (log_entityId r) entityId.

Definition where_type_user (entityType userId : string) (r : SyncLog) : bool :=
  String.eqb (log_entityType r) entityType && String.eqb (log_userId r) userId.

Definition where_user (userId : string) (r : SyncLog) : bool :=
  String.eqb (log_userId r) userId.

Definition where_pull (entityType : string) (since : Z) (userId : string) (r : SyncLog) : bool :=
  String.eqb (log_entityType r) entityType
  && (since <? log_timestamp r)
  && negb (String.eqb (log_userId r) userId).

Definition select (p : SyncLog → bool) (rows : list SyncLog) : list SyncLog :=
  filter (λ r, p r = true) rows.

Definition syncLog_findFirst (p : SyncLog → bool) (key : SyncLog → Z)
  (rows : list SyncLog) : option SyncLog :=
  first_desc key (select p rows).

Definition syncLog_findMany (p : SyncLog → bool) (key : SyncLog → Z) (limit : nat)
  (rows : list SyncLog) : list SyncLog :=
  take limit (order_asc key (select p rows)).

Definition syncLog_findUnique (id : string) (rows : list SyncLog) : option SyncLog :=
  List.find (λ r, String.eqb (log_id r) id) rows.

(** The message of the error raised on a violation of [sync_logs_pkey]. *)
Definition UNIQUE_ID := "Unique constraint failed on the fields: (`id`)".

(** [syncLog.create]: [id] is the primary key of the table. *)
Definition syncLog_create (row : SyncLog) (rows : list SyncLog) : result (list SyncLog) :=
  match syncLog_findUnique (log_id row) rows with
  | Some _ => Throw (ErrorObj UNIQUE_ID)
  | None => Ok (rows ++ [row])
  end.

(** ** The registry of entity configurations *)

(** [Map.prototype.set] and [Map.prototype.get] on [entityConfigs]. *)
Fixpoint map_set (k : string) (c : EntitySyncConfig)
  (m : list (string * EntitySyncConfig)) : list (string * EntitySyncConfig) :=
  match m with
  | [] => [(k, c)]
  | (k', c') :: m' =>
      if String.eqb k k' then (k, c) :: m' else (k', c') :: map_set k c m'
  end.

Fixpoint map_get (k : string) (m : list (string * EntitySyncConfig))
  : option EntitySyncConfig :=
  match m with
  | [] => None
  | (k', c) :: m' => if String.eqb k k' then Some c else map_get k m'
  end.

Definition initializeEntityConfigs : list (string * EntitySyncConfig) :=
  let m := map_set USER
    {| cfg_entityType := USER; cfg_tableName := "user"; cfg_includes := None;
       cfg_excludeFields := Some ["password"; "refreshToken"];
       cfg_softDelete := None |} [] in
  let m := map_set TASK
    {| cfg_entityType := TASK; cfg_tableName := "task";
       cfg_includes := Some ["assignee"; "project"];
       cfg_excludeFields := None; cfg_softDelete := None |} m in
  map_set PROJECT
    {| cfg_entityType := PROJECT; cfg_tableName := "project";
       cfg_includes := Some ["members"];
       cfg_excludeFields := None; cfg_softDelete := None |} m.

Definition entityConfigs : list (string * EntitySyncConfig) :=
  initializeEntityConfigs.

(** ** Quantities the specification speaks of *)

(** The greatest version among some rows of the audit log, if there is a
    row. *)
Fixpoint max_version (rows : list SyncLog) : option Z :=
  match rows with
  | [] => None
  | r :: rows' =>
      Some (match max_version rows' with
            | Some m => Z.max (log_version r) m
            | None => log_version r
            end)
  end.

(** The highest version of the rows, 0 if there is none. *)
Definition highest_version (rows : list SyncLog) : Z :=
  default 0 (max_version rows).

(** [serverVersion] of the specification: the highest audit-log version of
    an entity. *)
Definition entity_version (entityType entityId : string) (rows : list SyncLog) : Z :=
  highest_version (select (where_entity entityType entityId) rows).

(** The highest version among the rows of an entity type, whoever wrote
    them. *)
Definition type_version (entityType : string) (rows : list SyncLog) : Z :=
  highest_version (select (λ r, String.eqb (log_entityType r) entityType) rows).

(** The highest version among the rows of an entity type written by a
    user. *)
Definition own_type_version (entityType userId : string) (rows : list SyncLog) : Z :=
  highest_version (select (where_type_user entityType userId) rows).

(** [clientVersion] of the specification. *)
Definition token_version (entityType : string) (syncToken : SyncToken) : Z :=
  default 0 (tok_entityVersions syncToken !! entityType).

Definition registered (entityType : string) : Prop :=
  is_Some (map_get entityType entityConfigs).

Definition log_ids (rows : list SyncLog) : list string := map log_id rows.

(** The versions of an entity, in the order of their insertion. *)
Definition versions_of (entityType entityId : string) (rows : list SyncLog) : list Z :=
  map log_version (select (where_entity entityType entityId) rows).

(** The versions of every entity are 1, 2, ..., in the order in which its
    rows were appended. *)
Definition consecutive (rows : list SyncLog) : Prop :=
  ∀ entityType entityId,
    versions_of entityType entityId rows
    = map Z.of_nat (seq 1 (length (versions_of entityType entityId rows))).

(** Non-decreasing timestamps. *)
Fixpoint ascending (ts : list Z) : Prop :=
  match ts with
  | [] => True
  | t :: ts' =>
      match ts' with
      | [] => True
      | t' :: _ => t ≤ t'
      end ∧ ascending ts'
  end.

(** ** The Prisma client and the runtime *)

(** The model delegates [prisma[tableName]] of the entity tables.  Their
    behaviour belongs to the database and to the Prisma schema, which the
    service does not constrain; the service is verified for every
    implementation of this interface. *)
Class PrismaModels (T : Type) := {
  (** [prisma[tableName]] is defined *)
  has_model : string → bool;
  (** [model.findUnique({ where: { id }, include })] *)
  model_findUnique : string → string → option (list string) → T → option jobject;
  (** [model.create({ data })] *)
  model_create : string → jobject → T → result T;
  (** [model.update({ where: { id }, data })] *)
  model_update : string → string → jobject → T → result T;
  (** [model.delete({ where: { id } })] *)
  model_delete : string → string → T → result T;
}.

Class Runtime := {
  (** the value of the [k]-th evaluation of [new Date()] *)
  clock : nat → Z;
  (** the value of the [k]-th call of [crypto.randomUUID()] *)
  uuid : nat → string;
  (** md5 (hex) of [JSON.stringify data] *)
  md5_json : json → string;
}.

(** The state the service runs in. *)
Record World (T : Type) := {
  entities : T;
  syncLog : list SyncLog;
  dates : nat;
  uuids : nat;
}.
Arguments entities {T} _.
Arguments syncLog {T} _.
Arguments dates {T} _.
Arguments uuids {T} _.

(** Computations of the service: state passing with exceptions. *)
Definition M (T A : Type) : Type := World T → result A * World T.

Definition ret {T A} (a : A) : M T A := λ w, (Ok a, w).

Definition bind {T A B} (c : M T A) (k : A → M T B) : M T B :=
  λ w, match c w with
       | (Ok a, w') => k a w'
       | (Throw e, w') => (Throw e, w')
       end.

Definition throw {T A} (e : thrown) : M T A := λ w, (Throw e, w).

(** [try { c } catch (error) { h error }] *)
Definition try_catch {T A} (c : M T A) (h : thrown → M T A) : M T A :=
  λ w, match c w with
       | (Ok a, w') => (Ok a, w')
       | (Throw e, w') => h e w'
       end.

Declare Scope sync_scope.
Delimit Scope sync_scope with sync.
Notation "'let*' x := c 'in' k" := (bind c (λ x, k))
  (at level 10, x pattern, c at level 100, k at level 200) : sync_scope.
Notation "c ;; k" := (bind c (λ _, k))
  (at level 100, k at level 200, right associativity) : sync_scope.

Section Service.
Context {T : Type} {models : PrismaModels T} {runtime : Runtime}.
Local Open Scope sync_scope.

(** [new Date()] *)
Definition newDate : M T Z :=
  λ w, (Ok (clock (dates w)),
        {| entities := entities w; syncLog := syncLog w;
           dates := S (dates w); uuids := uuids w |}).

(** [crypto.randomUUID()] *)
Definition randomUUID : M T string :=
  λ w, (Ok (uuid (uuids w)),
        {| entities := entities w; syncLog := syncLog w;
           dates := dates w; uuids := S (uuids w) |}).

(** A query on [prisma.syncLog]. *)
Definition readLog {A} (q : list SyncLog → A) : M T A :=
  λ w, (Ok (q (syncLog w)), w).

(** A query on an entity table. *)
Definition readEntities {A} (q : T → A) : M T A :=
  λ w, (Ok (q (entities w)), w).

(** A write on an entity table. *)
Definition writeEntities (f : T → result T) : M T unit :=
  λ w, match f (entities w) with
       | Ok t => (Ok tt, {| entities := t; syncLog := syncLog w;
                            dates := dates w; uuids := uuids w |})
       | Throw e => (Throw e, w)
       end.

(** [prisma.syncLog.create({ data: row })] *)
Definition createLog (row : SyncLog) : M T unit :=
  λ w, match syncLog_create row (syncLog w) with
       | Ok rows => (Ok tt, {| entities := entities w; syncLog := rows;
                               dates := dates w; uuids := uuids w |})
       | Throw e => (Throw e, w)
       end.

Definition generateChecksum (data : json) : string := md5_json data.

Definition createSyncToken (userId : string) : M T SyncToken :=
  let* lastSyncTimestamp := newDate in
  let* entityVersions :=
    readLog (λ rows,
      foldl (λ (versions : gmap string Z) kc,
               let entityType := kc.1 in
               let latestRecord :=
                 syncLog_findFirst (where_type_user entityType userId)
                                   log_version rows in
               <[entityType := or_zero (log_version <$> latestRecord)]> versions)
            ∅ entityConfigs) in
  ret {| tok_userId := userId;
         tok_lastSyncTimestamp := lastSyncTimestamp;
         tok_entityVersions := entityVersions |}.

Definition model_not_found (tableName : string) : thrown :=
  ErrorObj ("Model " +:+ tableName +:+ " not found").

Definition getEntityData (tableName entityId : string) (config : EntitySyncConfig)
  : M T json :=
  if negb (has_model tableName) then throw (model_not_found tableName) else
  (* Object.keys(includeOptions).length > 0 ? includeOptions : undefined *)
  let include :=
    match cfg_includes config with
    | Some (i :: rest) => Some (i :: rest)
    | _ => None
    end in
  let* data := readEntities (model_findUnique tableName entityId include) in
  match data, cfg_excludeFields config with
  | Some row, Some excluded =>
      ret (JObj (foldl (λ o field, obj_delete field o) row excluded))
  | Some row, None => ret (JObj row)
  | None, _ => ret JNull
  end.

(** The body of the loop over [syncRecords] in [pullData]. *)
Definition pullRecord (config : EntitySyncConfig) (syncRecord : SyncLog)
  : M T SyncRecord :=
  let* entityData :=
    if negb (String.eqb (log_action syncRecord) "DELETE")
    then getEntityData (cfg_tableName config) (log_entityId syncRecord) config
    else ret JNull in
  ret {| rec_id := log_id syncRecord;
         rec_entityType := log_entityType syncRecord;
         rec_entityId := log_entityId syncRecord;
         rec_action := log_action syncRecord;
         rec_data := entityData;
         rec_timestamp := log_timestamp syncRecord;
         rec_userId := log_userId syncRecord;
         rec_version := log_version syncRecord |}.

Fixpoint pullRecords (config : EntitySyncConfig) (syncRecords : list SyncLog)
  (records : list SyncRecord) : M T (list SyncRecord) :=
  match syncRecords with
  | [] => ret records
  | syncRecord :: rest =>
      let* r := pullRecord config syncRecord in
      pullRecords config rest (records ++ [r])
  end.

(** The loop over [entityTypes] in [pullData]. *)
Fixpoint pullTypes (userId : string) (since : Z) (limit : nat)
  (entityTypes : list string) (records : list SyncRecord) : M T (list SyncRecord) :=
  match entityTypes with
  | [] => ret records
  | entityType :: rest =>
      match map_get entityType entityConfigs with
      | None => pullTypes userId since limit rest records
      | Some config =>
          let* syncRecords :=
            readLog (syncLog_findMany (where_pull entityType since userId)
                                      log_timestamp limit) in
          let* records' := pullRecords config syncRecords records in
          pullTypes userId since limit rest records'
      end
  end.

(** [pull_lastSyncTimestamp] is the instant the request's string denotes;
    [None] stands for an absent (or empty) string, for which the service
    takes [new Date(0)]. *)
Definition pullData (userId : string) (request : PullRequest) : M T PullResponse :=
  let lastSyncTimestamp := pull_lastSyncTimestamp request in
  let entityTypes := default (map fst entityConfigs) (pull_entityTypes request) in
  let limit := default 100%nat (pull_limit request) in
  let since := default 0 lastSyncTimestamp in
  let* records := pullTypes userId since limit entityTypes [] in
  let* syncToken := createSyncToken userId in
  let* serverTimestamp := newDate in
  ret {| pull_records := records;
         pull_syncToken := syncToken;
         pull_hasMore := Nat.eqb (length records) limit;
         pull_serverTimestamp := serverTimestamp |}.

(** Detect conflicts with server data. *)
Definition detectConflict (record : SyncRecord) (syncToken : SyncToken)
  : M T (option ConflictData) :=
  match map_get (rec_entityType record) entityConfigs with
  | None => ret None
  | Some config =>
      let* latestSyncRecord :=
        readLog (syncLog_findFirst
                   (where_entity (rec_entityType record) (rec_entityId record))
                   log_version) in
      let serverVersion := or_zero (log_version <$> latestSyncRecord) in
      let clientVersion :=
        or_zero (tok_entityVersions syncToken !! rec_entityType record) in
      if clientVersion <? serverVersion then
        let* serverData :=
          getEntityData (cfg_tableName config) (rec_entityId record) config in
        ret (Some {| serverVersion := serverVersion;
                     clientVersion := clientVersion;
                     serverData := serverData;
                     clientData := rec_data record |})
      else ret None
  end.

Definition not_configured (entityType : string) : thrown :=
  ErrorObj ("Entity type " +:+ entityType +:+ " not configured").

Definition unknown_action (action : string) : thrown :=
  ErrorObj ("Unknown action: " +:+ action).

(** Apply change to database. *)
Definition applyChange (record : SyncRecord) (userId : string) : M T unit :=
  match map_get (rec_entityType record) entityConfigs with
  | None => throw (not_configured (rec_entityType record))
  | Some config =>
      let tableName := cfg_tableName config in
      if negb (has_model tableName) then throw (model_not_found tableName) else
      let action := rec_action record in
      let entityId := rec_entityId record in
      let data := rec_data record in
      if String.eqb action "CREATE" then
        let* createdAt := newDate in
        let* updatedAt := newDate in
        writeEntities
          (model_create tableName
             (obj_literal (spread data)
                [("id", JStr entityId);
                 ("createdAt", JDate createdAt);
                 ("updatedAt", JDate updatedAt)]))
      else if String.eqb action "UPDATE" then
        let* updatedAt := newDate in
        writeEntities
          (model_update tableName entityId
             (obj_literal (spread data) [("updatedAt", JDate updatedAt)]))
      else if String.eqb action "DELETE" then
        if default false (cfg_softDelete config) then
          let* deletedAt := newDate in
          writeEntities
            (model_update tableName entityId
               [("deleted", JBool true); ("deletedAt", JDate deletedAt)])
        else writeEntities (model_delete tableName entityId)
      else throw (unknown_action action)
  end.

(** Log sync record for audit and version tracking. *)
Definition logSyncRecord (record : SyncRecord) (userId : string) : M T unit :=
  let* latestRecord :=
    readLog (syncLog_findFirst
               (where_entity (rec_entityType record) (rec_entityId record))
               log_version) in
  let nextVersion := or_zero (log_version <$> latestRecord) + 1 in
  let* timestamp := newDate in
  createLog {| log_id := rec_id record;
               log_entityType := rec_entityType record;
               log_entityId := rec_entityId record;
               log_action := rec_action record;
               log_data := rec_data record;
               log_userId := userId;
               log_timestamp := timestamp;
               log_version := nextVersion;
               log_checksum := Some (generateChecksum (rec_data record)) |}.

(** [error instanceof Error ? error.message : 'UNKNOWN_ERROR'] *)
Definition reason_of (error : thrown) : string :=
  match error with
  | ErrorObj message => message
  | NonError => "UNKNOWN_ERROR"
  end.

(** The body of the loop of [pushData]; [out] holds the arrays [accepted]
    and [rejected] built so far. *)
Definition pushRecord (userId : string) (syncToken : SyncToken)
  (record : SyncRecord) (out : list string * list Rejection)
  : M T (list string * list Rejection) :=
  try_catch
    (let* conflict := detectConflict record syncToken in
     match conflict with
     | Some c =>
         ret (out.1, out.2 ++ [{| rej_id := rec_id record;
                                  rej_reason := "CONFLICT";
                                  rej_conflictData := Some c |}])
     | None =>
         applyChange record userId ;;
         logSyncRecord record userId ;;
         ret (out.1 ++ [rec_id record], out.2)
     end)
    (λ error,
       ret (out.1, out.2 ++ [{| rej_id := rec_id record;
                                rej_reason := reason_of error;
                                rej_conflictData := None |}])).

Fixpoint pushRecords (userId : string) (syncToken : SyncToken)
  (records : list SyncRecord) (out : list string * list Rejection)
  : M T (list string * list Rejection) :=
  match records with
  | [] => ret out
  | record :: rest =>
      let* out' := pushRecord userId syncToken record out in
      pushRecords userId syncToken rest out'
  end.

Definition pushData (userId : string) (request : PushRequest) : M T PushResponse :=
  let records := push_records request in
  let syncToken := push_syncToken request in
  let* out := pushRecords userId syncToken records ([], []) in
  let* newSyncToken := createSyncToken userId in
  let* serverTimestamp := newDate in
  ret {| push_accepted := out.1;
         push_rejected := out.2;
         push_newSyncToken := newSyncToken;
         push_serverTimestamp := serverTimestamp |}.

Definition getSyncStatus (userId : string) : M T SyncStatus :=
  let* lastSync :=
    readLog (syncLog_findFirst (where_user userId) log_timestamp) in
  let pendingChanges := 0 in
  ret {| st_userId := userId;
         (* lastSync?.timestamp || new Date(0): a Date is always truthy *)
         st_lastSyncTimestamp := default 0 (log_timestamp <$> lastSync);
         st_pendingChanges := pendingChanges;
         st_isOnline := true;
         st_syncInProgress := false |}.

(** [{ ...syncRecord, data: finalData } as SyncRecord] *)
Definition with_data (syncRecord : SyncLog) (finalData : json) : SyncRecord :=
  {| rec_id := log_id syncRecord;
     rec_entityType := log_entityType syncRecord;
     rec_entityId := log_entityId syncRecord;
     rec_action := log_action syncRecord;
     rec_data := finalData;
     rec_timestamp := log_timestamp syncRecord;
     rec_userId := log_userId syncRecord;
     rec_version := log_version syncRecord |}.

(** [{ ...record, id }] *)
Definition with_id (record : SyncRecord) (id : string) : SyncRecord :=
  {| rec_id := id;
     rec_entityType := rec_entityType record;
     rec_entityId := rec_entityId record;
     rec_action := rec_action record;
     rec_data := rec_data record;
     rec_timestamp := rec_timestamp record;
     rec_userId := rec_userId record;
     rec_version := rec_version record |}.

(** The tail of [resolveConflict], after the [switch]. *)
Definition reapply (userId : string) (syncRecord : SyncLog) (finalData : json)
  : M T unit :=
  applyChange (with_data syncRecord finalData) userId ;;
  let* id := randomUUID in
  logSyncRecord (with_id (with_data syncRecord finalData) id) userId.

Definition resolveConflict (userId : string) (resolution : ConflictResolution)
  : M T unit :=
  let recordId := res_recordId resolution in
  let strategy := res_strategy resolution in
  let mergedData := res_mergedData resolution in
  let* syncRecord := readLog (syncLog_findUnique recordId) in
  match syncRecord with
  | None => throw (ErrorObj "Sync record not found")
  | Some syncRecord =>
      if String.eqb strategy "SERVER_WINS" then ret tt
      else if String.eqb strategy "CLIENT_WINS" then
        reapply userId syncRecord (log_data syncRecord)
      else if String.eqb strategy "MERGE" then
        match mergedData with
        | Some merged =>
            if truthy merged then reapply userId syncRecord merged
            else throw (ErrorObj "Merged data required for MERGE strategy")
        | None => throw (ErrorObj "Merged data required for MERGE strategy")
        end
      else throw (ErrorObj ("Unknown resolution strategy: " +:+ strategy))
  end.

(** *** Notions used to state the properties of a push *)

(** The row appended by [logSyncRecord] in a log [rows] read at time [t]. *)
Definition new_row (record : SyncRecord) (userId : string) (rows : list SyncLog)
  (t : Z) : SyncLog :=
  {| log_id := rec_id record;
     log_entityType := rec_entityType record;
     log_entityId := rec_entityId record;
     log_action := rec_action record;
     log_data := rec_data record;
     log_userId := userId;
     log_timestamp := t;
     log_version :=
       entity_version (rec_entityType record) (rec_entityId record) rows + 1;
     log_checksum := Some (md5_json (rec_data record)) |}.

Definition conflict_rejection (record : SyncRecord) (c : ConflictData) : Rejection :=
  {| rej_id := rec_id record; rej_reason := "CONFLICT"; rej_conflictData := Some c |}.

Definition failure_rejection (record : SyncRecord) (e : thrown) : Rejection :=
  {| rej_id := rec_id record; rej_reason := reason_of e; rej_conflictData := None |}.

(** One turn of the loop of [pushData] on [record] in the state [w]: what
    it adds to [accepted] and [rejected], and the state it leaves. *)
Inductive pushed (userId : string) (syncToken : SyncToken)
  (record : SyncRecord) (w : World T)
  : list string * list Rejection → World T → Prop :=
| pushed_conflict c :
    detectConflict record syncToken w = (Ok (Some c), w) →
    pushed userId syncToken record w ([], [conflict_rejection record c]) w
| pushed_accepted wa wb :
    detectConflict record syncToken w = (Ok None, w) →
    applyChange record userId w = (Ok tt, wa) →
    logSyncRecord record userId wa = (Ok tt, wb) →
    pushed userId syncToken record w ([rec_id record], []) wb
| pushed_detect_failed e :
    detectConflict record syncToken w = (Throw e, w) →
    pushed userId syncToken record w ([], [failure_rejection record e]) w
| pushed_apply_failed e wa :
    detectConflict record syncToken w = (Ok None, w) →
    applyChange record userId w = (Throw e, wa) →
    pushed userId syncToken record w ([], [failure_rejection record e]) wa
| pushed_log_failed e wa wb :
    detectConflict record syncToken w = (Ok None, w) →
    applyChange record userId w = (Ok tt, wa) →
    logSyncRecord record userId wa = (Throw e, wb) →
    pushed userId syncToken record w ([], [failure_rejection record e]) wb.

(** The whole loop, turn after turn. *)
Inductive batch (userId : string) (syncToken : SyncToken)
  : list SyncRecord → World T → list string * list Rejection → World T → Prop :=
| batch_nil (w : World T) : batch userId syncToken [] w ([], []) w
| batch_cons (record : SyncRecord) rest (w : World T) o1 w1 o2 w2 :
    pushed userId syncToken record w o1 w1 →
    batch userId syncToken rest w1 o2 w2 →
    batch userId syncToken (record :: rest) w (o1.1 ++ o2.1, o1.2 ++ o2.2) w2.

(** The state in which the loop reaches the record that follows the
    records [before]. *)
Definition state_after (userId : string) (syncToken : SyncToken)
  (before : list SyncRecord) (w : World T)
  : World T :=
  (pushRecords userId syncToken before ([], []) w).2.
End Service.

(** ** An in-memory database

    An implementation of the model delegates, used to run the service on
    concrete inputs.  The Prisma client has the three models the service
    is configured with; [create] refuses an [id] that is taken, [update]
    and [delete] refuse an [id] that is absent. *)

Definition MemDb : Type := list (string * string * jobject).

Fixpoint mem_find (tableName id : string) (db : MemDb) : option jobject :=
  match db with
  | [] => None
  | (t, i, row) :: db' =>
      if String.eqb t tableName && String.eqb i id then Some row
      else mem_find tableName id db'
  end.

Fixpoint mem_put (tableName id : string) (row : jobject) (db : MemDb) : MemDb :=
  match db with
  | [] => [(tableName, id, row)]
  | (t, i, row') :: db' =>
      if String.eqb t tableName && String.eqb i id then (t, i, row) :: db'
      else (t, i, row') :: mem_put tableName id row db'
  end.

Definition mem_remove (tableName id : string) (db : MemDb) : MemDb :=
  filter (λ e, negb (String.eqb e.1.1 tableName && String.eqb e.1.2 id) = true) db.

Definition mem_has_model (tableName : string) : bool :=
  String.eqb tableName "user" || String.eqb tableName "task"
  || String.eqb tableName "project".

Definition mem_create (tableName : string) (data : jobject) (db : MemDb) : result MemDb :=
  match obj_get "id" data with
  | Some (JStr id) =>
      match mem_find tableName id db with
      | Some _ => Throw (ErrorObj UNIQUE_ID)
      | None => Ok (mem_put tableName id data db)
      end
  | _ => Throw (ErrorObj "Argument `id` is missing.")
  end.

Definition mem_update (tableName id : string) (data : jobject) (db : MemDb) : result MemDb :=
  match mem_find tableName id db with
  | Some row => Ok (mem_put tableName id (obj_literal row data) db)
  | None => Throw (ErrorObj "Record to update not found.")
  end.

Definition mem_delete (tableName id : string) (db : MemDb) : result MemDb :=
  match mem_find tableName id db with
  | Some _ => Ok (mem_remove tableName id db)
  | None => Throw (ErrorObj "Record to delete does not exist.")
  end.

#[export] Instance mem_models : PrismaModels MemDb := {|
  has_model := mem_has_model;
  model_findUnique := λ tableName id _, mem_find tableName id;
  model_create := mem_create;
  model_update := mem_update;
  model_delete := mem_delete;
|}.

(** A runtime whose clock advances by one millisecond per reading. *)
Definition test_runtime : Runtime := {|
  clock := λ k, 1000 + Z.of_nat k;
  uuid := λ k, "uuid-" +:+ index_key k;
  md5_json := λ _, "md5";
|}.

(** Concrete databases and requests. *)

Definition log_row (id entityType entityId action userId : string) (t v : Z) (data : json)
  : SyncLog :=
  {| log_id := id; log_entityType := entityType; log_entityId := entityId;
     log_action := action; log_data := data; log_userId := userId;
     log_timestamp := t; log_version := v; log_checksum := None |}.

Definition sync_record (id entityType entityId action : string) (data : json)
  : SyncRecord :=
  {| rec_id := id; rec_entityType := entityType; rec_entityId := entityId;
     rec_action := action; rec_data := data; rec_timestamp := 0;
     rec_userId := ""; rec_version := 1 |}.

Definition token_of (userId : string) (versions : list (string * Z)) : SyncToken :=
  {| tok_userId := userId; tok_lastSyncTimestamp := 0;
     tok_entityVersions := list_to_map versions |}.

Definition empty_world : World MemDb :=
  {| entities := []; syncLog := []; dates := 0; uuids := 0 |}.

(** Task [t1] after five mutations by user [u2]. *)
Definition task_world : World MemDb :=
  {| entities := [("task", "t1", [("id", JStr "t1"); ("title", JStr "server")])];
     syncLog :=
       [log_row "a1" "task" "t1" "CREATE" "u2" 10 1 (JObj [("title", JStr "v1")]);
        log_row "a2" "task" "t1" "UPDATE" "u2" 20 2 (JObj [("title", JStr "v2")]);
        log_row "a3" "task" "t1" "UPDATE" "u2" 30 3 (JObj [("title", JStr "v3")]);
        log_row "a4" "task" "t1" "UPDATE" "u2" 40 4 (JObj [("title", JStr "v4")]);
        log_row "a5" "task" "t1" "UPDATE" "u2" 50 5 (JObj [("title", JStr "server")])];
     dates := 0; uuids := 0 |}.

(** Three tasks and two projects created by user [u2]. *)
Definition mixed_world : World MemDb :=
  {| entities :=
       [("task", "t1", [("id", JStr "t1")]); ("task", "t2", [("id", JStr "t2")]);
        ("task", "t3", [("id", JStr "t3")]);
        ("project", "p1", [("id", JStr "p1")]); ("project", "p2", [("id", JStr "p2")])];
     syncLog :=
       [log_row "b1" "task" "t1" "CREATE" "u2" 10 1 JNull;
        log_row "b2" "project" "p1" "CREATE" "u2" 20 1 JNull;
        log_row "b3" "task" "t2" "CREATE" "u2" 30 1 JNull;
        log_row "b4" "project" "p2" "CREATE" "u2" 40 1 JNull;
        log_row "b5" "task" "t3" "CREATE" "u2" 50 1 JNull];
     dates := 0; uuids := 0 |}.

Definition task_config : EntitySyncConfig :=
  {| cfg_entityType := TASK; cfg_tableName := "task";
     cfg_includes := Some ["assignee"; "project"];
     cfg_excludeFields := None; cfg_softDelete := None |}.

(** ** The client: hooks/useSyncStatus.ts and services/syncService.ts *)

Record QueueItem := {
  q_id : string;
  q_entityType : string;
  q_entityId : string;
  q_action : string;
  q_data : json;
  q_timestamp : Z;
  q_retryCount : Z;
}.

Record SyncConflict := {
  c_id : string;
  c_entityType : string;
  c_entityId : string;
  c_serverData : option json;
  c_localData : option json;
  c_timestamp : Z;
}.

(** Modelled from the spec: the module [utils/db] ([offlineDB]) is not part
    of the sources.  Following the contract of the Local Durable Store, it
    holds cached entity snapshots per store, the pending-mutation queue and
    scalar metadata; [getSyncQueue] lists the queue, [removeSyncQueueItem]
    dequeues by id, [update] upserts a snapshot under its id, [delete]
    removes one, [setMetadata] overwrites a key. *)
Record OfflineDB := {
  db_snapshots : list (string * string * jobject);
  db_syncQueue : list QueueItem;
  db_lastSyncAt : option Z;
  db_syncConflicts : option (list SyncConflict);
  db_syncToken : option SyncToken;
}.






(** Modelled from the spec: [offlineDB.setMetadata('syncConflicts', cs)]. *)
Definition set_syncConflicts (cs : list SyncConflict) (db : OfflineDB) : OfflineDB :=
  {| db_snapshots := db_snapshots db;
     db_syncQueue := db_syncQueue db;
     db_lastSyncAt := db_lastSyncAt db;
     db_syncConflicts := Some cs;
     db_syncToken := db_syncToken db |}.


(** The state of the hook ([useState<SyncStatus>]). *)
Record HookStatus := {
  isSyncing : bool;
  lastSyncAt : option Z;
  pendingChanges : nat;
  syncProgress : Z;
  conflicts : list SyncConflict;
  syncError : option string;
}.

Record Client := {
  status : HookStatus;
  offlineDB : OfflineDB;
  client_dates : nat;
}.


Section ClientCycle.
Context {runtime : Runtime}.
(** [localStorage.getItem('user')]: the id of the stored user, if any. *)
Variable localUser : option string.










End ClientCycle.












(** A user with credentials, updated once by the user. *)
Definition user_world : World MemDb :=
  {| entities :=
       [("user", "u2", [("id", JStr "u2"); ("name", JStr "Ada");
                        ("password", JStr "hash"); ("refreshToken", JStr "secret")])];
     syncLog := [log_row "c1" "user" "u2" "UPDATE" "u2" 10 1 (JObj [("name", JStr "Ada")])];
     dates := 0; uuids := 0 |}.

(** A pull request without parameters. *)
Definition pull_everything : PullRequest :=
  {| pull_lastSyncTimestamp := None; pull_entityTypes := None; pull_limit := None |}.

(** ** The network monitor: hooks/useNetworkStatus.ts *)

Record NetworkStatus := {
  isOnline : bool;
  isSlowConnection : bool;
  connectionType : string;
  lastOnlineAt : option Z;
  retryAttempts : nat;
}.

(** What the reconnection loop does, in order. *)
Inductive NetEvent :=
| Wait (ms : Z)
| Probe (attempt : nat) (online : bool).

Section Monitor.
Context {runtime : Runtime}.
(** [options.maxRetries], a number of attempts (3 by default). *)
Variable maxRetries : nat.
(** The outcome [(isOnline, isSlowConnection)] of the call of
    [checkConnectionQuality] made by attempt [k]. *)
Variable checkConnectionQuality : nat → bool * bool.
(** What [getConnectionType()] returns. *)
Variable getConnectionType : string.

(** [Math.min(1000 * Math.pow(2, attempt), 30000)] *)
Definition delay (attempt : nat) : Z :=
  Z.min (1000 * 2 ^ Z.of_nat attempt) 30000.

Definition set_retryAttempts (n : nat) (prev : NetworkStatus) : NetworkStatus :=
  {| isOnline := isOnline prev;
     isSlowConnection := isSlowConnection prev;
     connectionType := connectionType prev;
     lastOnlineAt := lastOnlineAt prev;
     retryAttempts := n |}.

(** An attempt that finds the server unreachable. *)
Definition failed_attempt (n : nat) : list NetEvent :=
  [Wait (delay n); Probe n false].

Definition is_probe (e : NetEvent) : bool :=
  match e with
  | Probe _ _ => true
  | Wait _ => false
  end.

Definition probe_count (events : list NetEvent) : nat :=
  length (filter (λ e, is_probe e = true) events).

(** [retryConnection(attempt)]: the events of the loop, the final state
    and the number of dates read; [d] counts the dates read so far. *)
Equations? retryConnection (attempt : nat) (prev : NetworkStatus) (d : nat)
  : list NetEvent * NetworkStatus * nat by wf (maxRetries - attempt)%nat lt :=
  retryConnection attempt prev d with le_lt_dec maxRetries attempt => {
    | left _ => ([], set_retryAttempts attempt prev, d);
    | right _ with checkConnectionQuality attempt => {
        | (true, slow) =>
            ([Wait (delay attempt); Probe attempt true],
             {| isOnline := true;
                isSlowConnection := slow;
                connectionType := getConnectionType;
                lastOnlineAt := Some (clock d);
                retryAttempts := 0 |},
             S d);
        | (false, _) =>
            let '(events, final, d') :=
              retryConnection (S attempt) (set_retryAttempts (attempt + 1) prev) d in
            (Wait (delay attempt) :: Probe attempt false :: events, final, d')
      }
  }.
Proof. lia. Qed.
End Monitor.

(** A state of the monitor, and a server that no probe reaches. *)
Definition online_status : NetworkStatus :=
  {| isOnline := true; isSlowConnection := false; connectionType := "4g";
     lastOnlineAt := Some 0; retryAttempts := 0 |}.

Definition unreachable (attempt : nat) : bool * bool := (false, true).

(** ** More of the service: what a pull delivers *)

Section Delivery.
Context {T : Type} {models : PrismaModels T} {runtime : Runtime}.

(** What [getEntityData] returns when the table has a model: the row found
    by [findUnique], without the excluded fields, or [null]. *)
Definition entity_snapshot (tableName entityId : string) (config : EntitySyncConfig)
  (t : T) : json :=
  let include :=
    match cfg_includes config with
    | Some (i :: rest) => Some (i :: rest)
    | _ => None
    end in
  match model_findUnique tableName entityId include t, cfg_excludeFields config with
  | Some row, Some excluded =>
      JObj (foldl (λ o field, obj_delete field o) row excluded)
  | Some row, None => JObj row
  | None, _ => JNull
  end.

(** The record that [pullData] pushes on [records] for a row of the audit
    log. *)
Definition record_of (config : EntitySyncConfig) (t : T) (syncRecord : SyncLog)
  : SyncRecord :=
  {| rec_id := log_id syncRecord;
     rec_entityType := log_entityType syncRecord;
     rec_entityId := log_entityId syncRecord;
     rec_action := log_action syncRecord;
     rec_data :=
       if negb (String.eqb (log_action syncRecord) "DELETE")
       then entity_snapshot (cfg_tableName config) (log_entityId syncRecord) config t
       else JNull;
     rec_timestamp := log_timestamp syncRecord;
     rec_userId := log_userId syncRecord;
     rec_version := log_version syncRecord |}.

(** The records that the loop of [pullData] adds for one requested entity
    type. *)
Definition page_of (userId : string) (since : Z) (limit : nat) (t : T)
  (rows : list SyncLog) (entityType : string) : list SyncRecord :=
  match map_get entityType entityConfigs with
  | Some config =>
      map (record_of config t)
          (syncLog_findMany (where_pull entityType since userId) log_timestamp limit rows)
  | None => []
  end.
End Delivery.

(** ** The controller: SyncController *)

(** What a handler answers through [ResponseUtil]; [NoReply] stands for a
    handler that only logs the error. *)
Inductive Reply (A : Type) : Type :=
| ReplySuccess (headers : list (string * string)) (data : A) (message : string)
| ReplyForbidden (message : string)
| ReplyBadRequest (message : string)
| NoReply.
Arguments ReplySuccess {A} headers data message.
Arguments ReplyForbidden {A} message.
Arguments ReplyBadRequest {A} message.
Arguments NoReply {A}.

Module SyncController.
Section Handlers.
Context {T : Type} {models : PrismaModels T} {runtime : Runtime}.
(** [Date.prototype.toISOString] *)
Variable toISOString : Z → string.

(** [POST /api/v1/sync/push].  [body] is the outcome of
    [pushRequestSchema.parse(req.body)], [None] when it throws a
    [ZodError]; [userId] is [req.user!.id]. *)
Definition pushData (userId : string) (body : option PushRequest) (w : World T)
  : Reply PushResponse * World T :=
  match body with
  | None => (ReplyBadRequest "Invalid request data", w)
  | Some pushRequest =>
      if negb (String.eqb (tok_userId (push_syncToken pushRequest)) userId)
      then (ReplyForbidden "Invalid sync token", w)
      else
        match pushData userId pushRequest w with
        | (Ok result, w') =>
            (ReplySuccess
               [("X-Sync-Timestamp", toISOString (push_serverTimestamp result));
                ("X-Accepted-Count", index_key (length (push_accepted result)));
                ("X-Rejected-Count", index_key (length (push_rejected result)))]
               result "Data pushed successfully", w')
        | (Throw _, w') => (NoReply, w')
        end
  end.

(** [GET /api/v1/sync/pull].  [query] is the outcome of
    [pullRequestSchema.parse] on the parameters of the query, [None] when it
    throws a [ZodError]. *)
Definition pullData (userId : string) (query : option PullRequest) (w : World T)
  : Reply PullResponse * World T :=
  match query with
  | None => (ReplyBadRequest "Invalid request parameters", w)
  | Some pullRequest =>
      match pullData userId pullRequest w with
      | (Ok result, w') =>
          (ReplySuccess
             [("X-Sync-Timestamp", toISOString (pull_serverTimestamp result));
              ("X-Has-More", if pull_hasMore result then "true" else "false")]
             result "Data pulled successfully", w')
      | (Throw _, w') => (NoReply, w')
      end
  end.

(** [GET /api/v1/sync/status] *)
Definition getSyncStatus (userId : string) (w : World T)
  : Reply SyncStatus * World T :=
  match getSyncStatus userId w with
  | (Ok status, w') =>
      (ReplySuccess [] status "Sync status retrieved successfully", w')
  | (Throw _, w') => (NoReply, w')
  end.

(** [POST /api/v1/sync/resolve-conflict]; [body] is the outcome of
    [conflictResolutionSchema.parse(req.body)]. *)
Definition resolveConflict (userId : string) (body : option ConflictResolution)
  (w : World T) : Reply unit * World T :=
  match body with
  | None => (ReplyBadRequest "Invalid conflict resolution data", w)
  | Some resolution =>
      match resolveConflict userId resolution w with
      | (Ok _, w') => (ReplySuccess [] tt "Conflict resolved successfully", w')
      | (Throw _, w') => (NoReply, w')
      end
  end.
End Handlers.
End SyncController.

(** ** More of the hook useSyncStatus *)


Module useSyncStatus.
Section Hook.
Context {runtime : Runtime}.



(** [resolveConflict(conflictId, resolution, mergedData)] of the hook;
    [answer] is what [syncService.resolveConflict] does with the request:
    it throws when the server does not answer [ok]. *)
Definition resolveConflict (answer : ConflictResolution → result unit)
  (conflictId resolution : string) (mergedData : option json) (c : Client)
  : bool * Client :=
  let conflicts := conflicts (status c) in
  match List.find (λ k, String.eqb (c_id k) conflictId) conflicts with
  | None => (false, c)
  | Some conflict =>
      match answer {| res_recordId := conflictId;
                      res_strategy := resolution;
                      res_mergedData := mergedData |} with
      | Throw _ => (false, c)
      | Ok _ =>
          let updatedConflicts :=
            filter (λ k, negb (String.eqb (c_id k) conflictId) = true) conflicts in
          (true,
           {| status := {| isSyncing := isSyncing (status c);
                           lastSyncAt := lastSyncAt (status c);
                           pendingChanges := pendingChanges (status c);
                           syncProgress := syncProgress (status c);
                           conflicts := updatedConflicts;
                           syncError := syncError (status c) |};
              offlineDB := set_syncConflicts updatedConflicts (offlineDB c);
              client_dates := client_dates c |})
      end
  end.
End Hook.
End useSyncStatus.

(** ** More of the hook useNetworkStatus *)

Module useNetworkStatus.
Section Hook.
Context {runtime : Runtime}.
Variable maxRetries : nat.

(** [getConnectionQualityText] *)
Definition getConnectionQualityText (networkStatus : NetworkStatus) : string :=
  if negb (isOnline networkStatus) then "Offline"
  else if isSlowConnection networkStatus then "Slow Connection"
  else if String.eqb (connectionType networkStatus) "4g" then "Fast Connection"
  else if String.eqb (connectionType networkStatus) "3g" then "Good Connection"
  else if String.eqb (connectionType networkStatus) "2g" then "Slow Connection"
  else if String.eqb (connectionType networkStatus) "slow-2g" then "Very Slow Connection"
  else "Connected".

(** [isRetrying: networkStatus.retryAttempts > 0] *)
Definition isRetrying (networkStatus : NetworkStatus) : bool :=
  (0 <? retryAttempts networkStatus)%nat.

(** [canRetry: !networkStatus.isOnline && networkStatus.retryAttempts < maxRetries] *)
Definition canRetry (networkStatus : NetworkStatus) : bool :=
  negb (isOnline networkStatus) && (retryAttempts networkStatus <? maxRetries)%nat.

(** [manualRetry]: [probe] is the outcome of its call of
    [checkConnectionQuality], [connType] what [getConnectionType()]
    returns, [d] the number of dates read so far. *)
Definition manualRetry (probe : bool * bool) (connType : string)
  (prev : NetworkStatus) (d : nat) : bool * NetworkStatus * nat :=
  let prev := set_retryAttempts 0 prev in
  let '(online, slow) := probe in
  (online,
   {| isOnline := online;
      isSlowConnection := slow;
      connectionType := connType;
      lastOnlineAt := if online then Some (clock d) else lastOnlineAt prev;
      retryAttempts := retryAttempts prev |},
   if online then S d else d).

(** [handleOffline]: the state is marked offline and slow, and the
    reconnection loop starts at attempt 0. *)
Definition handleOffline (checkConnectionQuality : nat → bool * bool)
  (connType : string) (prev : NetworkStatus) (d : nat)
  : list NetEvent * NetworkStatus * nat :=
  retryConnection maxRetries checkConnectionQuality connType 0
    {| isOnline := false;
       isSlowConnection := true;
       connectionType := connectionType prev;
       lastOnlineAt := lastOnlineAt prev;
       retryAttempts := retryAttempts prev |} d.

(** The milliseconds waited by a run of the reconnection loop. *)
Definition total_wait (events : list NetEvent) : Z :=
  foldr (λ e acc, match e with Wait ms => ms + acc | Probe _ _ => acc end) 0 events.
End Hook.
End useNetworkStatus.

(** Two runs of one computation in one state give one result. *)
Ltac same_run :=
  repeat match goal with
         | H1 : ?f = _, H2 : ?f = _ |- _ =>
             rewrite H1 in H2; inversion H2; subst; clear H2
         end.

Ltac run :=
  unfold bind, ret, throw, try_catch, readLog, readEntities, writeEntities,
    createLog, newDate, randomUUID in *; simpl in *.

(** ** Facts about the queries *)

Lemma or_zero_default (v : option Z) : or_zero v = default 0 v.
Proof.
  destruct v as [n|]; simpl; [|done].
  destruct (Z.eqb_spec n 0); congruence.
Qed.

Lemma first_desc_max_version (rows : list SyncLog) :
  log_version <$> first_desc log_version rows = max_version rows.
Proof.
  induction rows as [|r rows IH]; simpl; [done|].
  rewrite <- IH. destruct (first_desc log_version rows) as [r'|]; simpl; [|done].
  destruct (Z.ltb_spec (log_version r) (log_version r')); simpl; f_equal; lia.
Qed.

Lemma findFirst_version (p : SyncLog → bool) (rows : list SyncLog) :
  or_zero (log_version <$> syncLog_findFirst p log_version rows)
  = highest_version (select p rows).
Proof.
  unfold syncLog_findFirst, highest_version.
  by rewrite or_zero_default, first_desc_max_version.
Qed.

Lemma max_version_upper (rows : list SyncLog) (r : SyncLog) (m : Z) :
  max_version rows = Some m → r ∈ rows → log_version r ≤ m.
Proof.
  revert m. induction rows as [|r' rows IH]; intros m Hm Hin.
  - by apply elem_of_nil in Hin.
  - simpl in Hm. apply elem_of_cons in Hin as [->|Hin].
    + destruct (max_version rows); injection Hm as <-; lia.
    + destruct (max_version rows) as [m'|] eqn:E.
      * specialize (IH m' eq_refl Hin). injection Hm as <-. lia.
      * destruct rows; [by apply elem_of_nil in Hin | done].
Qed.

Lemma max_version_attained (rows : list SyncLog) (m : Z) :
  max_version rows = Some m → ∃ r, r ∈ rows ∧ log_version r = m.
Proof.
  revert m. induction rows as [|r' rows IH]; intros m Hm; [done|].
  simpl in Hm. destruct (max_version rows) as [m'|] eqn:E.
  - destruct (IH m' eq_refl) as (r & Hin & Hr).
    injection Hm as <-. destruct (Z.max_spec (log_version r') m') as [[_ ->]|[_ ->]].
    + exists r. split; [by apply elem_of_cons; right | done].
    + exists r'. split; [by apply elem_of_cons; left | done].
  - injection Hm as <-. exists r'. split; [by apply elem_of_cons; left | done].
Qed.

Lemma max_version_app (rows : list SyncLog) (r : SyncLog) :
  max_version (rows ++ [r])
  = Some (match max_version rows with
          | Some m => Z.max m (log_version r)
          | None => log_version r
          end).
Proof.
  induction rows as [|r' rows IH]; simpl; [done|].
  rewrite IH. destruct (max_version rows); f_equal; lia.
Qed.

(** The highest version bounds every version and, when there is a row, is
    the version of one. *)
Lemma highest_version_upper (rows : list SyncLog) (r : SyncLog) :
  r ∈ rows → log_version r ≤ highest_version rows.
Proof.
  intros Hin. unfold highest_version.
  destruct (max_version rows) as [m|] eqn:E.
  - by eapply max_version_upper.
  - destruct rows; [by apply elem_of_nil in Hin | done].
Qed.

Lemma highest_version_attained (rows : list SyncLog) :
  rows ≠ [] → ∃ r, r ∈ rows ∧ log_version r = highest_version rows.
Proof.
  intros Hne. unfold highest_version.
  destruct (max_version rows) as [m|] eqn:E.
  - by apply max_version_attained.
  - by destruct rows.
Qed.

(** [findFirst] with [orderBy desc] returns a selected row with the
    greatest key, and nothing only when no row is selected. *)
Lemma first_desc_greatest (key : SyncLog → Z) (rows : list SyncLog) :
  match first_desc key rows with
  | Some r => r ∈ rows ∧ ∀ r', r' ∈ rows → key r' ≤ key r
  | None => rows = []
  end.
Proof.
  induction rows as [|r rows IH]; simpl; [done|].
  destruct (first_desc key rows) as [r1|].
  - destruct IH as [Hin Hmax].
    destruct (Z.ltb_spec (key r) (key r1)) as [Hlt|Hge].
    + split; [by apply elem_of_cons; right|].
      intros r' Hr'. apply elem_of_cons in Hr' as [->|Hr']; [lia | by apply Hmax].
    + split; [by apply elem_of_cons; left|].
      intros r' Hr'. apply elem_of_cons in Hr' as [->|Hr']; [lia|].
      specialize (Hmax r' Hr'). lia.
  - subst rows. split; [by apply elem_of_cons; left|].
    intros r' Hr'. apply list_elem_of_singleton in Hr' as ->. lia.
Qed.

Lemma select_app (p : SyncLog → bool) (rows rows' : list SyncLog) :
  select p (rows ++ rows') = select p rows ++ select p rows'.
Proof. unfold select. apply filter_app. Qed.

Lemma findUnique_None (id : string) (rows : list SyncLog) :
  syncLog_findUnique id rows = None ↔ id ∉ log_ids rows.
Proof.
  unfold syncLog_findUnique, log_ids.
  induction rows as [|r rows IH]; simpl.
  - split; [intros _; apply not_elem_of_nil | done].
  - destruct (String.eqb_spec (log_id r) id) as [->|Hne].
    + split; [done|]. intros Hn. exfalso. apply Hn. apply elem_of_cons. by left.
    + rewrite IH, not_elem_of_cons. split; [done | by intros [_ ?]].
Qed.

Lemma registered_cases (entityType : string) (config : EntitySyncConfig) :
  map_get entityType entityConfigs = Some config →
  entityType = USER ∨ entityType = TASK ∨ entityType = PROJECT.
Proof.
  unfold entityConfigs, initializeEntityConfigs, USER, TASK, PROJECT. simpl.
  destruct (String.eqb_spec entityType "user") as [->|_]; [by left|].
  destruct (String.eqb_spec entityType "task") as [->|_]; [by right; left|].
  destruct (String.eqb_spec entityType "project") as [->|_]; [by right; right|].
  done.
Qed.

(** ** Facts about the service *)

Section ServiceFacts.
Context {T : Type} {models : PrismaModels T} {runtime : Runtime}.
Implicit Types (w : World T) (record : SyncRecord) (syncToken : SyncToken).

(** The token built by [createSyncToken]: the database is left as it is
    and every registered type gets the highest version among the rows
    written by the user. *)
Lemma createSyncToken_run (userId : string) w :
  ∃ token w',
    createSyncToken userId w = (Ok token, w')
    ∧ entities w' = entities w ∧ syncLog w' = syncLog w
    ∧ uuids w' = uuids w
    ∧ tok_userId token = userId
    ∧ tok_lastSyncTimestamp token = clock (dates w)
    ∧ (∀ entityType, registered entityType →
         tok_entityVersions token !! entityType
         = Some (own_type_version entityType userId (syncLog w)))
    ∧ (∀ entityType, ¬ registered entityType →
         tok_entityVersions token !! entityType = None).
Proof.
  unfold createSyncToken. run. eexists _, _. split; [reflexivity|]. simpl.
  repeat split; try done.
  - intros entityType [config Hc]. apply registered_cases in Hc.
    unfold own_type_version. rewrite <- !findFirst_version.
    unfold USER, TASK, PROJECT in *.
    destruct Hc as [->|[->| ->]]; by simplify_map_eq.
  - intros entityType Hn.
    assert (entityType ≠ "user" ∧ entityType ≠ "task" ∧ entityType ≠ "project")
      as (? & ? & ?).
    { repeat split; intros ->; apply Hn; by eexists. }
    by simplify_map_eq.
Qed.

Lemma getEntityData_world (tableName entityId : string) config w :
  (getEntityData tableName entityId config w).2 = w.
Proof.
  unfold getEntityData. destruct (has_model tableName); run; [|done].
  destruct (model_findUnique _ _ _ _); destruct (cfg_excludeFields config); reflexivity.
Qed.

Lemma getEntityData_ok (tableName entityId : string) config w :
  has_model tableName = true →
  ∃ data, getEntityData tableName entityId config w = (Ok data, w).
Proof.
  intros Hm. unfold getEntityData. rewrite Hm. run.
  destruct (model_findUnique _ _ _ _), (cfg_excludeFields config); eauto.
Qed.

Lemma detectConflict_world record syncToken w :
  (detectConflict record syncToken w).2 = w.
Proof.
  unfold detectConflict. destruct (map_get _ _) as [config|]; run; [|done].
  destruct (_ <? _); [|done].
  pose proof (getEntityData_world (cfg_tableName config) (rec_entityId record) config w) as Hw.
  destruct (getEntityData _ _ _ _) as [[data|e] w']; simpl in *; by subst.
Qed.

(** [detectConflict] compares the two versions of the specification. *)
Lemma detectConflict_registered record syncToken config w :
  map_get (rec_entityType record) entityConfigs = Some config →
  detectConflict record syncToken w =
    if token_version (rec_entityType record) syncToken
       <? entity_version (rec_entityType record) (rec_entityId record) (syncLog w)
    then
      match getEntityData (cfg_tableName config) (rec_entityId record) config w with
      | (Ok data, w') =>
          (Ok (Some {| serverVersion :=
                         entity_version (rec_entityType record)
                                        (rec_entityId record) (syncLog w);
                       clientVersion :=
                         token_version (rec_entityType record) syncToken;
                       serverData := data;
                       clientData := rec_data record |}), w')
      | (Throw e, w') => (Throw e, w')
      end
    else (Ok None, w).
Proof.
  intros Hc. unfold detectConflict, entity_version, token_version.
  rewrite Hc. run. rewrite findFirst_version, or_zero_default.
  destruct (_ <? _); [|reflexivity].
  by destruct (getEntityData _ _ _ _) as [[data|e] w'].
Qed.

Lemma detectConflict_unregistered record syncToken w :
  map_get (rec_entityType record) entityConfigs = None →
  detectConflict record syncToken w = (Ok None, w).
Proof. intros Hc. unfold detectConflict. by rewrite Hc. Qed.

(** [applyChange] does not touch the audit log. *)
Lemma applyChange_log record (userId : string) w :
  syncLog (applyChange record userId w).2 = syncLog w
  ∧ uuids (applyChange record userId w).2 = uuids w.
Proof.
  unfold applyChange. destruct (map_get _ _) as [config|]; run; [|done].
  destruct (has_model _); run; [|done].
  repeat (match goal with
          | |- context [if ?b then _ else _] => destruct b
          | |- context [match ?f (entities ?w) with _ => _ end] =>
              destruct (f (entities w))
          end; run); done.
Qed.

Lemma applyChange_unregistered record (userId : string) w :
  map_get (rec_entityType record) entityConfigs = None →
  applyChange record userId w = (Throw (not_configured (rec_entityType record)), w).
Proof. intros Hc. unfold applyChange. by rewrite Hc. Qed.

(** [logSyncRecord] appends one row, one version above the entity's
    highest, unless the id of the record is taken. *)
Lemma logSyncRecord_run record (userId : string) w :
  ∃ w', entities w' = entities w ∧ uuids w' = uuids w ∧
    if decide (rec_id record ∈ log_ids (syncLog w)) then
      logSyncRecord record userId w = (Throw (ErrorObj UNIQUE_ID), w')
      ∧ syncLog w' = syncLog w
    else
      logSyncRecord record userId w = (Ok tt, w')
      ∧ syncLog w' = syncLog w ++ [new_row record userId (syncLog w) (clock (dates w))].
Proof.
  exists (logSyncRecord record userId w).2.
  unfold logSyncRecord. run. unfold syncLog_create. simpl.
  rewrite findFirst_version.
  fold (entity_version (rec_entityType record) (rec_entityId record) (syncLog w)).
  destruct (decide (rec_id record ∈ log_ids (syncLog w))) as [Hin|Hn].
  - destruct (syncLog_findUnique (rec_id record) (syncLog w)) as [r|] eqn:E; [done|].
    by apply findUnique_None in E.
  - apply findUnique_None in Hn. by rewrite Hn.
Qed.
End ServiceFacts.

Section PushFacts.
Context {T : Type} {models : PrismaModels T} {runtime : Runtime}.
Implicit Types (w : World T) (record : SyncRecord) (syncToken : SyncToken).
Implicit Types (out : list string * list Rejection).

Lemma pushRecord_pushed (userId : string) syncToken record out w :
  ∃ o w', pushRecord userId syncToken record out w
          = (Ok (out.1 ++ o.1, out.2 ++ o.2), w')
          ∧ pushed userId syncToken record w o w'.
Proof.
  pose proof (detectConflict_world record syncToken w) as Hd.
  unfold pushRecord. run.
  destruct (detectConflict record syncToken w) as [[[c|]|e] w0] eqn:Ed;
    simpl in Hd; subst w0.
  - exists ([], [conflict_rejection record c]), w. simpl.
    rewrite app_nil_r. split; [done | by constructor].
  - destruct (applyChange record userId w) as [[[]|e] wa] eqn:Ea.
    + destruct (logSyncRecord record userId wa) as [[[]|e] wb] eqn:El.
      * exists ([rec_id record], []), wb. simpl. rewrite app_nil_r.
        split; [done | by econstructor].
      * exists ([], [failure_rejection record e]), wb. simpl. rewrite app_nil_r.
        split; [done | by eapply pushed_log_failed].
    + exists ([], [failure_rejection record e]), wa. simpl. rewrite app_nil_r.
      split; [done | by eapply pushed_apply_failed].
  - exists ([], [failure_rejection record e]), w. simpl. rewrite app_nil_r.
    split; [done | by eapply pushed_detect_failed].
Qed.

Lemma pushRecords_batch (userId : string) syncToken (records : list SyncRecord) out w :
  ∃ o w', pushRecords userId syncToken records out w
          = (Ok (out.1 ++ o.1, out.2 ++ o.2), w')
          ∧ batch userId syncToken records w o w'.
Proof.
  revert out w. induction records as [|record rest IH]; intros out w; simpl.
  - exists ([], []), w. run. rewrite !app_nil_r. destruct out.
    split; [done | constructor].
  - destruct (pushRecord_pushed userId syncToken record out w) as (o1 & w1 & E1 & P1).
    unfold bind at 1. rewrite E1.
    destruct (IH (out.1 ++ o1.1, out.2 ++ o1.2) w1) as (o2 & w2 & E2 & P2).
    rewrite E2. simpl. exists (o1.1 ++ o2.1, o1.2 ++ o2.2), w2. simpl.
    rewrite !app_assoc. split; [done | by econstructor].
Qed.

Lemma pushed_deterministic (userId : string) syncToken record w o w' o2 w2 :
  pushed userId syncToken record w o w' →
  pushed userId syncToken record w o2 w2 →
  o = o2 ∧ w' = w2.
Proof.
  intros P1 P2. destruct P1; destruct P2; same_run; done.
Qed.

Lemma batch_deterministic (userId : string) syncToken (records : list SyncRecord)
  w o w' o2 w2 :
  batch userId syncToken records w o w' →
  batch userId syncToken records w o2 w2 →
  o = o2 ∧ w' = w2.
Proof.
  intros B1. revert o2 w2. induction B1 as [|record rest w o1 w1 o1' w1' P1 B1 IH];
    intros o2 w2 B2; inversion B2; subst; [done|].
  match goal with
  | P2 : pushed _ _ _ _ _ _ |- _ =>
      destruct (pushed_deterministic _ _ _ _ _ _ _ _ P1 P2) as [-> ->]
  end.
  match goal with
  | B : batch _ _ rest _ _ _ |- _ => destruct (IH _ _ B) as [-> ->]
  end.
  done.
Qed.

Lemma batch_state_after (userId : string) syncToken (records : list SyncRecord) w o w' :
  batch userId syncToken records w o w' →
  state_after userId syncToken records w = w'
  ∧ pushRecords userId syncToken records ([], []) w = (Ok o, w').
Proof.
  intros B. unfold state_after.
  destruct (pushRecords_batch userId syncToken records ([], []) w) as (o2 & w2 & E & B2).
  destruct (batch_deterministic _ _ _ _ _ _ _ _ B B2) as [-> ->].
  rewrite E. simpl. by destruct o2.
Qed.

Lemma batch_app (userId : string) syncToken (rs1 rs2 : list SyncRecord) w o1 w1 o2 w2 :
  batch userId syncToken rs1 w o1 w1 →
  batch userId syncToken rs2 w1 o2 w2 →
  batch userId syncToken (rs1 ++ rs2) w (o1.1 ++ o2.1, o1.2 ++ o2.2) w2.
Proof.
  intros B1. revert o2 w2. induction B1 as [|record rest w o1 w1 o1' w1' P1 B1 IH];
    intros o2 w2 B2; simpl.
  - by destruct o2.
  - rewrite <- !app_assoc. specialize (IH _ _ B2).
    by apply (batch_cons _ _ _ _ _ _ _ (o1'.1 ++ o2.1, o1'.2 ++ o2.2) _ P1).
Qed.

Lemma batch_total (userId : string) syncToken (records : list SyncRecord) w :
  ∃ o w', batch userId syncToken records w o w'.
Proof.
  destruct (pushRecords_batch userId syncToken records ([], []) w) as (o & w' & _ & B).
  eauto.
Qed.

(** [pushData] never throws: it answers with the arrays built by the loop
    and a fresh token. *)
Lemma pushData_run (userId : string) (request : PushRequest) w :
  ∃ o w1 response w',
    batch userId (push_syncToken request) (push_records request) w o w1
    ∧ pushData userId request w = (Ok response, w')
    ∧ push_accepted response = o.1
    ∧ push_rejected response = o.2
    ∧ createSyncToken userId w1 = (Ok (push_newSyncToken response),
                                    (createSyncToken userId w1).2)
    ∧ entities w' = entities w1 ∧ syncLog w' = syncLog w1.
Proof.
  destruct (pushRecords_batch userId (push_syncToken request) (push_records request)
              ([], []) w) as (o & w1 & E & B).
  destruct (createSyncToken_run userId w1) as (token & w2 & Et & He & Hl & _).
  exists o, w1. unfold pushData, bind. rewrite E. cbv beta iota.
  rewrite Et. cbv beta iota. unfold newDate, ret.
  eexists _, _. split; [done|]. split; [reflexivity|]. simpl.
  destruct o. by rewrite He, Hl.
Qed.
End PushFacts.

Section BatchFacts.
Context {T : Type} {models : PrismaModels T} {runtime : Runtime}.
Implicit Types (w : World T) (record : SyncRecord) (syncToken : SyncToken).
Implicit Types (o : list string * list Rejection).

(** A turn adds the id of its record to exactly one of the two arrays. *)
Lemma pushed_shape (userId : string) syncToken record w o w' :
  pushed userId syncToken record w o w' →
  o = ([rec_id record], [])
  ∨ ∃ rejection, o = ([], [rejection]) ∧ rej_id rejection = rec_id record.
Proof. intros P. destruct P; eauto. Qed.

Lemma pushed_pushRecord (userId : string) syncToken record w o w' :
  pushed userId syncToken record w o w' →
  pushRecord userId syncToken record ([], []) w = (Ok o, w').
Proof.
  intros P.
  destruct (pushRecord_pushed userId syncToken record ([], []) w) as (o2 & w2 & E & P2).
  destruct (pushed_deterministic _ _ _ _ _ _ _ _ P P2) as [-> ->].
  rewrite E. by destruct o2.
Qed.

Lemma batch_counts (userId : string) syncToken (records : list SyncRecord) w o w' :
  batch userId syncToken records w o w' →
  (length o.1 + length o.2 = length records)%nat
  ∧ o.1 ++ map rej_id o.2 ≡ₚ map rec_id records.
Proof.
  induction 1 as [|record rest w o1 w1 o2 w2 P B [IHl IHp]]; simpl; [done|].
  rewrite !length_app, map_app.
  destruct (pushed_shape _ _ _ _ _ _ P) as [->|(rejection & -> & Hid)]; simpl.
  - split; [lia | by rewrite IHp].
  - split; [lia|]. rewrite Hid, <- IHp. by rewrite Permutation_middle.
Qed.

Lemma batch_split (userId : string) syncToken (before after : list SyncRecord)
  record w o w' :
  batch userId syncToken (before ++ record :: after) w o w' →
  ∃ o1 w1 o2 w2 o3,
    batch userId syncToken before w o1 w1
    ∧ pushed userId syncToken record w1 o2 w2
    ∧ batch userId syncToken after w2 o3 w'
    ∧ o = (o1.1 ++ o2.1 ++ o3.1, o1.2 ++ o2.2 ++ o3.2).
Proof.
  revert w o. induction before as [|r before IH]; intros w o B; simpl in B.
  - inversion B; subst. eexists ([], []), w, _, _, _.
    split; [constructor|]. split; [done|]. split; [done|]. done.
  - inversion B as [|? ? ? oa wa ob wb Pa Bb]; subst.
    destruct (IH _ _ Bb) as (o1 & w1 & o2 & w2 & o3 & B1 & P2 & B3 & ->).
    eexists (oa.1 ++ o1.1, oa.2 ++ o1.2), w1, o2, w2, o3.
    split; [by econstructor|]. split; [done|]. split; [done|].
    simpl. by rewrite <- !app_assoc.
Qed.

(** In a batch, the turn of a record starts in the state left by the
    records before it and ends in the state the next record starts in. *)
Lemma batch_turn (userId : string) syncToken (before after : list SyncRecord)
  record w o w' :
  batch userId syncToken (before ++ record :: after) w o w' →
  ∃ o2,
    pushed userId syncToken record
      (state_after userId syncToken before w) o2
      (state_after userId syncToken (before ++ [record]) w)
    ∧ (∀ id, id ∈ o2.1 → id ∈ o.1)
    ∧ (∀ rejection, rejection ∈ o2.2 → rejection ∈ o.2).
Proof.
  intros B.
  destruct (batch_split _ _ _ _ _ _ _ _ B) as (o1 & w1 & o2 & w2 & o3 & B1 & P2 & B3 & ->).
  exists o2.
  destruct (batch_state_after _ _ _ _ _ _ B1) as [-> _].
  assert (batch userId syncToken (before ++ [record]) w
            (o1.1 ++ o2.1 ++ [], o1.2 ++ o2.2 ++ []) w2) as B12.
  { apply (batch_app _ _ _ [record] _ o1 w1 (o2.1 ++ [], o2.2 ++ []) w2 B1).
    apply (batch_cons _ _ _ _ _ o2 w2 ([], []) w2 P2). constructor. }
  destruct (batch_state_after _ _ _ _ _ _ B12) as [-> _].
  split; [done|]. simpl. split; intros x Hx; set_solver.
Qed.
End BatchFacts.

(** ** The claims about the server *)

Section ServerClaims.
Context {T : Type} {models : PrismaModels T} {runtime : Runtime}.
Implicit Types (w : World T) (record : SyncRecord) (syncToken : SyncToken).

(** C1 (amended).  For a pushed record of a registered entity type, whose
    table has a model, let [sv] be the highest audit-log version of its
    entity (0 if none) when its turn comes and [cv] the entry of the
    submitted token for its entity type (0 if absent).  If [sv > cv] the
    record is rejected with reason CONFLICT and conflict data made of
    [sv], [cv], the current entity data and the client data, and neither
    the entities nor the audit log change.  If [sv <= cv] the mutation is
    attempted: the record is accepted when applying it and appending its
    audit-log entry both succeed, and rejected with the message of the
    failure otherwise. *)
Theorem conflict_detection (userId : string) syncToken
  (before after : list SyncRecord) record (config : EntitySyncConfig) w :
  map_get (rec_entityType record) entityConfigs = Some config →
  has_model (cfg_tableName config) = true →
  let request := {| push_records := before ++ record :: after;
                    push_syncToken := syncToken |} in
  let w1 := state_after userId syncToken before w in
  let w2 := state_after userId syncToken (before ++ [record]) w in
  let sv := entity_version (rec_entityType record) (rec_entityId record) (syncLog w1) in
  let cv := token_version (rec_entityType record) syncToken in
  ∃ response w',
    pushData userId request w = (Ok response, w')
    ∧ (cv < sv →
       w2 = w1
       ∧ ∃ data,
           getEntityData (cfg_tableName config) (rec_entityId record) config w1
           = (Ok data, w1)
           ∧ {| rej_id := rec_id record;
                rej_reason := "CONFLICT";
                rej_conflictData :=
                  Some {| serverVersion := sv; clientVersion := cv;
                          serverData := data; clientData := rec_data record |} |}
             ∈ push_rejected response)
    ∧ (sv ≤ cv →
       (∀ wa wb,
          applyChange record userId w1 = (Ok tt, wa) →
          logSyncRecord record userId wa = (Ok tt, wb) →
          w2 = wb ∧ rec_id record ∈ push_accepted response)
       ∧ (∀ e wa,
            applyChange record userId w1 = (Throw e, wa) →
            w2 = wa
            ∧ {| rej_id := rec_id record; rej_reason := reason_of e;
                 rej_conflictData := None |} ∈ push_rejected response)
       ∧ (∀ e wa wb,
            applyChange record userId w1 = (Ok tt, wa) →
            logSyncRecord record userId wa = (Throw e, wb) →
            w2 = wb
            ∧ {| rej_id := rec_id record; rej_reason := reason_of e;
                 rej_conflictData := None |} ∈ push_rejected response)).
Proof.
  intros Hc Hm request w1 w2 sv cv.
  destruct (pushData_run userId request w)
    as (o & w3 & response & w' & B & E & Ha & Hr & _).
  exists response, w'. split; [done|]. rewrite Ha, Hr. simpl in B.
  destruct (batch_turn _ _ _ _ _ _ _ _ B) as (o2 & P & Hin1 & Hin2).
  fold w1 w2 in P.
  pose proof (detectConflict_registered record syncToken config w1 Hc) as Hd.
  fold sv cv in Hd.
  destruct (getEntityData_ok (cfg_tableName config) (rec_entityId record) config w1 Hm)
    as (data & Hg).
  rewrite Hg in Hd.
  split.
  - intros Hlt. apply Z.ltb_lt in Hlt. rewrite Hlt in Hd.
    inversion P; subst; same_run.
    split; [done|]. exists data. split; [done|].
    apply Hin2. simpl. apply list_elem_of_singleton. done.
  - intros Hle. apply Z.ltb_ge in Hle. rewrite Hle in Hd.
    split; [|split].
    + intros wa wb Hap Hlog. inversion P; subst; same_run.
      split; [done|]. apply Hin1. simpl. by apply list_elem_of_singleton.
    + intros e wa Hap. inversion P; subst; same_run.
      split; [done|]. apply Hin2. simpl. by apply list_elem_of_singleton.
    + intros e wa wb Hap Hlog. inversion P; subst; same_run.
      split; [done|]. apply Hin2. simpl. by apply list_elem_of_singleton.
Qed.
Lemma consecutive_highest (rows : list SyncLog) (n : nat) :
  map log_version rows = map Z.of_nat (seq 1 n) →
  highest_version rows = Z.of_nat n.
Proof.
  revert n. induction rows as [|r rows IH] using rev_ind; intros n Hv.
  - destruct n; [done | discriminate].
  - destruct n as [|n].
    { rewrite map_app in Hv. by destruct (map log_version rows). }
    rewrite seq_S, !map_app in Hv. simpl in Hv.
    apply app_inj_tail in Hv as [Hv Hr].
    specialize (IH n Hv). unfold highest_version in *.
    rewrite max_version_app. cbn [default].
    destruct (max_version rows) as [m|] eqn:E; cbn [default] in IH;
      unfold id in *; [lia | done].
Qed.

Lemma consecutive_append record (userId : string) (rows : list SyncLog) (t : Z) :
  consecutive rows → consecutive (rows ++ [new_row record userId rows t]).
Proof.
  intros Hc entityType entityId. specialize (Hc entityType entityId).
  unfold versions_of in *. rewrite select_app, map_app, length_app.
  unfold select at 2 4. rewrite !filter_cons, !filter_nil. simpl.
  destruct (decide _) as [Hw|Hw]; simpl.
  - apply andb_prop in Hw as [Ht Hi].
    apply String.eqb_eq in Ht, Hi. simpl in Ht, Hi. subst entityType entityId.
    rewrite Nat.add_1_r, seq_S, map_app. simpl. f_equal; [done|].
    unfold entity_version. erewrite consecutive_highest by exact Hc.
    rewrite !length_map. f_equal. lia.
  - by rewrite Nat.add_0_r, !app_nil_r.
Qed.


(** What a turn does to the audit log: nothing, or one row for an
    accepted record. *)
Lemma pushed_log (userId : string) syncToken record w o w' :
  pushed userId syncToken record w o w' →
  (syncLog w' = syncLog w ∧ o.1 = [])
  ∨ (∃ t, syncLog w' = syncLog w ++ [new_row record userId (syncLog w) t]
          ∧ o = ([rec_id record], [])
          ∧ rec_id record ∉ log_ids (syncLog w)).
Proof.
  intros P.
  destruct P as [c Hd|wa wb Hd Hap Hlog|e Hd|e wa Hd Hap|e wa wb Hd Hap Hlog];
    try (left; split; done).
  - right. pose proof (applyChange_log record userId w) as [Hl _].
    rewrite Hap in Hl. simpl in Hl.
    destruct (logSyncRecord_run record userId wa) as (w2 & _ & _ & Hrun).
    destruct (decide _) as [Hin|Hn]; destruct Hrun as [E Hlog'];
      rewrite Hlog in E; inversion E; subst.
    exists (clock (dates wa)). rewrite Hlog', Hl. rewrite Hl in Hn. done.
  - left. pose proof (applyChange_log record userId w) as [Hl _].
    rewrite Hap in Hl. done.
  - left. pose proof (applyChange_log record userId w) as [Hl _].
    rewrite Hap in Hl. simpl in Hl.
    destruct (logSyncRecord_run record userId wa) as (w2 & _ & _ & Hrun).
    destruct (decide _) as [Hin|Hn]; destruct Hrun as [E Hlog'];
      rewrite Hlog in E; inversion E; subst.
    split; [congruence | done].
Qed.


(** What the push loop does to the audit log: it appends one row per
    accepted id, and an accepted id was not in the log before. *)
Lemma batch_log (userId : string) syncToken (records : list SyncRecord) w o w' :
  batch userId syncToken records w o w' →
  ∃ rows, syncLog w' = syncLog w ++ rows
          ∧ log_ids rows = o.1
          ∧ ∀ id, id ∈ o.1 → id ∉ log_ids (syncLog w).
Proof.
  induction 1 as [w|record rest w o1 w1 o2 w2 P B (rows & Hl & Hids & Hfresh)].
  - exists []. rewrite app_nil_r. split; [done|]. split; [done|].
    intros id Hin. by apply elem_of_nil in Hin.
  - destruct (pushed_log _ _ _ _ _ _ P) as [[E Hnil]|(t & E & -> & Hn)].
    + exists rows. rewrite Hl, E, Hnil. simpl. split; [done|]. split; [done|].
      intros id Hin. rewrite <- E. by apply Hfresh.
    + eexists (_ :: rows). rewrite Hl, E, <- app_assoc. simpl.
      split; [done|]. split; [by rewrite Hids|].
      intros id Hin. apply elem_of_cons in Hin as [->|Hin]; [done|].
      specialize (Hfresh id Hin). rewrite E in Hfresh.
      unfold log_ids in *. rewrite map_app in Hfresh.
      intros Hold. apply Hfresh. apply elem_of_app. by left.
Qed.

(** C2 (amended).  When a push contains a record whose id is already in
    the audit log, no second entry with that id is appended, and the
    record is not accepted: its id is among the rejected ones. *)
Theorem resubmitted_id_is_not_appended (userId : string) (request : PushRequest)
  record w :
  record ∈ push_records request →
  rec_id record ∈ log_ids (syncLog w) →
  ∃ response w',
    pushData userId request w = (Ok response, w')
    ∧ (rec_id record ∉ push_accepted response)
    ∧ rec_id record ∈ map rej_id (push_rejected response)
    ∧ ∃ rows, syncLog w' = syncLog w ++ rows ∧ rec_id record ∉ log_ids rows.
Proof.
  intros Hin Hold.
  destruct (pushData_run userId request w)
    as (o & w1 & response & w' & B & E & Ha & Hr & _ & _ & Hl).
  exists response, w'. split; [done|]. rewrite Ha, Hr, Hl.
  destruct (batch_log _ _ _ _ _ _ B) as (rows & Hlog & Hids & Hfresh).
  destruct (batch_counts _ _ _ _ _ _ B) as [_ Hperm].
  assert (rec_id record ∉ o.1) as Hna.
  { intros Hacc. by apply (Hfresh _ Hacc). }
  split; [done|]. split.
  - assert (rec_id record ∈ o.1 ++ map rej_id o.2) as Hin'.
    { rewrite Hperm. apply list_elem_of_fmap. eauto. }
    apply elem_of_app in Hin' as [?|?]; done.
  - exists rows. split; [done|]. by rewrite Hids.
Qed.

Lemma pullRecords_ok (config : EntitySyncConfig) (syncRecords : list SyncLog)
  (records : list SyncRecord) w :
  has_model (cfg_tableName config) = true →
  ∃ records', pullRecords config syncRecords records w = (Ok records', w).
Proof.
  intros Hm. revert records.
  induction syncRecords as [|syncRecord rest IH]; intros records; simpl.
  - by eexists.
  - unfold bind at 1. unfold pullRecord, bind at 1.
    destruct (negb (String.eqb (log_action syncRecord) "DELETE")).
    + destruct (getEntityData_ok (cfg_tableName config) (log_entityId syncRecord)
                  config w Hm) as (data & ->).
      simpl. apply IH.
    + simpl. apply IH.
Qed.

Lemma pullTypes_ok (userId : string) (since : Z) (limit : nat)
  (entityTypes : list string) (records : list SyncRecord) w :
  (∀ entityType config,
     map_get entityType entityConfigs = Some config →
     has_model (cfg_tableName config) = true) →
  ∃ records', pullTypes userId since limit entityTypes records w = (Ok records', w).
Proof.
  intros Hm. revert records.
  induction entityTypes as [|entityType rest IH]; intros records;
    cbn [pullTypes].
  - by eexists.
  - destruct (map_get entityType entityConfigs) as [config|] eqn:Hc; [|apply IH].
    unfold bind at 1. unfold readLog at 1. unfold bind at 1.
    destruct (pullRecords_ok config
                (syncLog_findMany (where_pull entityType since userId)
                                  log_timestamp limit (syncLog w))
                records w (Hm _ _ Hc)) as (records' & ->).
    apply IH.
Qed.

(** C5 (amended).  The token returned by a push and by a pull carries, for
    each registered entity type, the highest version among the audit-log
    entries of that type written by the requesting user (0 if none); it is
    computed from the audit log as the operation leaves it, not from the
    token of the request. *)
Theorem token_versions_are_recomputed (userId : string) w :
  (∀ entityType config,
     map_get entityType entityConfigs = Some config →
     has_model (cfg_tableName config) = true) →
  (∀ request : PushRequest,
     ∃ response w',
       pushData userId request w = (Ok response, w')
       ∧ ∀ entityType, registered entityType →
           tok_entityVersions (push_newSyncToken response) !! entityType
           = Some (own_type_version entityType userId (syncLog w')))
  ∧ (∀ request : PullRequest,
       ∃ response w',
         pullData userId request w = (Ok response, w')
         ∧ syncLog w' = syncLog w
         ∧ ∀ entityType, registered entityType →
             tok_entityVersions (pull_syncToken response) !! entityType
             = Some (own_type_version entityType userId (syncLog w'))).
Proof.
  intros Hm. split.
  - intros request.
    destruct (pushData_run userId request w)
      as (o & w1 & response & w' & B & E & Ha & Hr & Et & _ & Hl).
    exists response, w'. split; [done|]. intros entityType Hreg.
    destruct (createSyncToken_run userId w1)
      as (token & w2 & Et' & _ & _ & _ & _ & _ & Hv & _).
    rewrite Et' in Et. inversion Et as [Htok]. rewrite <- Htok, Hl. by apply Hv.
  - intros request. unfold pullData.
    destruct (pullTypes_ok userId (default 0 (pull_lastSyncTimestamp request))
                (default 100%nat (pull_limit request))
                (default (map fst entityConfigs) (pull_entityTypes request))
                [] w Hm) as (records & Ep).
    unfold bind at 1. rewrite Ep.
    destruct (createSyncToken_run userId w)
      as (token & w2 & Et & _ & Hl & _ & _ & _ & Hv & _).
    unfold bind at 1. rewrite Et. unfold bind, newDate, ret.
    eexists _, _. split; [reflexivity|]. simpl. split; [done|].
    intros entityType Hreg. rewrite Hl. by apply Hv.
Qed.

(** C10.  [getSyncStatus] answers with [pendingChanges = 0],
    [isOnline = true] and [syncInProgress = false] whatever the state and
    the user, and changes nothing; only [userId] and [lastSyncTimestamp]
    vary: the latter is the timestamp of the latest audit-log entry written
    by the user, the epoch if there is none. *)
Theorem sync_status_is_constant (userId : string) w :
  ∃ s,
    getSyncStatus userId w = (Ok s, w)
    ∧ st_pendingChanges s = 0
    ∧ st_isOnline s = true
    ∧ st_syncInProgress s = false
    ∧ st_userId s = userId
    ∧ (select (where_user userId) (syncLog w) = [] ∧ st_lastSyncTimestamp s = 0
       ∨ ∃ r, r ∈ syncLog w ∧ log_userId r = userId
              ∧ st_lastSyncTimestamp s = log_timestamp r
              ∧ ∀ r', r' ∈ syncLog w → log_userId r' = userId →
                      log_timestamp r' ≤ log_timestamp r).
Proof.
  eexists. split; [reflexivity|]. simpl. repeat split.
  unfold syncLog_findFirst.
  pose proof (first_desc_greatest log_timestamp (select (where_user userId) (syncLog w)))
    as Hg.
  destruct (first_desc _ _) as [r|]; simpl; [right | by left].
  destruct Hg as [Hin Hmax]. unfold select in Hin.
  apply list_elem_of_filter in Hin as [Hu Hin]. apply String.eqb_eq in Hu.
  exists r. repeat split; try done.
  intros r' Hin' Hu'. apply Hmax. apply list_elem_of_filter.
  split; [|done]. by apply String.eqb_eq.
Qed.

(** [resolveConflict] needs the record in the audit log. *)
Lemma resolveConflict_not_found (userId : string) (resolution : ConflictResolution) w :
  res_recordId resolution ∉ log_ids (syncLog w) →
  resolveConflict userId resolution w
  = (Throw (ErrorObj "Sync record not found"), w).
Proof.
  intros Hn. apply findUnique_None in Hn.
  unfold resolveConflict, bind, readLog. by rewrite Hn.
Qed.

(** A record rejected by a push is not in the audit log afterwards (unless
    its id was there before or was accepted in the same batch), so
    [resolveConflict] on its id fails. *)
Lemma rejected_record_is_not_resolvable (userId : string) (request : PushRequest)
  (strategy : string) (mergedData : option json) (id : string) w :
  id ∉ log_ids (syncLog w) →
  ∃ response w',
    pushData userId request w = (Ok response, w')
    ∧ ((id ∉ push_accepted response) →
       resolveConflict userId
         {| res_recordId := id; res_strategy := strategy;
            res_mergedData := mergedData |} w'
       = (Throw (ErrorObj "Sync record not found"), w')).
Proof.
  intros Hold.
  destruct (pushData_run userId request w)
    as (o & w1 & response & w' & B & E & Ha & Hr & _ & _ & Hl).
  exists response, w'. split; [done|]. intros Hna.
  apply resolveConflict_not_found. simpl. rewrite Hl.
  destruct (batch_log _ _ _ _ _ _ B) as (rows & -> & Hids & _).
  unfold log_ids in *. rewrite map_app, elem_of_app.
  intros [?|Hin]; [done|]. apply Hna. by rewrite Ha, <- Hids.
Qed.
(** What [resolveConflict] does to the audit log: nothing, or one row, one
    version above the highest of the entity of the record it found. *)
Lemma resolveConflict_log (userId : string) (resolution : ConflictResolution) w :
  let w' := (resolveConflict userId resolution w).2 in
  syncLog w' = syncLog w
  ∨ ∃ record t, syncLog w' = syncLog w ++ [new_row record userId (syncLog w) t].
Proof.
  assert (∀ syncRecord finalData,
            syncLog (reapply userId syncRecord finalData w).2 = syncLog w
            ∨ ∃ record t,
                syncLog (reapply userId syncRecord finalData w).2
                = syncLog w ++ [new_row record userId (syncLog w) t]) as Hre.
  { intros syncRecord finalData. unfold reapply, bind.
    pose proof (applyChange_log (with_data syncRecord finalData) userId w) as [Hl _].
    destruct (applyChange _ _ w) as [[[]|e] wa]; simpl in Hl; [|by left].
    unfold randomUUID.
    set (wb := {| entities := entities wa; syncLog := syncLog wa;
                  dates := dates wa; uuids := S (uuids wa) |}).
    set (record := with_id (with_data syncRecord finalData) (uuid (uuids wa))).
    destruct (logSyncRecord_run record userId wb) as (w2 & _ & _ & Hrun).
    destruct (decide _); destruct Hrun as [-> Hlog]; simpl; rewrite Hlog.
    - by left.
    - right. exists record, (clock (dates wb)). subst wb. simpl. by rewrite Hl. }
  unfold resolveConflict, bind, readLog.
  destruct (syncLog_findUnique _ _) as [syncRecord|]; [|by left].
  repeat (match goal with
          | |- context [if ?b then _ else _] => destruct b
          | |- context [match res_mergedData ?r with _ => _ end] =>
              destruct (res_mergedData r)
          end; try (by left); try apply Hre).
Qed.

(** A resolution that writes keeps the versions of every entity 1, 2, ...:
    it appends a new, higher version and rewrites none. *)
Lemma resolveConflict_consecutive (userId : string) (resolution : ConflictResolution) w :
  consecutive (syncLog w) →
  consecutive (syncLog (resolveConflict userId resolution w).2).
Proof.
  intros Hc. destruct (resolveConflict_log userId resolution w) as [->|(record & t & ->)];
    [done | by apply consecutive_append].
Qed.
End ServerClaims.

(** ** The claim about pull *)

Lemma insert_asc_length (key : SyncLog → Z) (r : SyncLog) (rows : list SyncLog) :
  length (insert_asc key r rows) = S (length rows).
Proof.
  induction rows as [|r' rows IH]; simpl; [done|].
  destruct (key r' <=? key r); simpl; by rewrite ?IH.
Qed.

Lemma insert_asc_perm (key : SyncLog → Z) (r : SyncLog) (rows : list SyncLog) :
  insert_asc key r rows ≡ₚ r :: rows.
Proof.
  induction rows as [|r' rows IH]; simpl; [done|].
  destruct (key r' <=? key r); [|done].
  rewrite IH. apply Permutation_swap.
Qed.

Lemma insert_asc_ascending (key : SyncLog → Z) (r : SyncLog) (rows : list SyncLog) :
  ascending (map key rows) → ascending (map key (insert_asc key r rows)).
Proof.
  induction rows as [|r' rows IH]; simpl; [done|].
  intros [Hhd Htl]. destruct (Z.leb_spec (key r') (key r)) as [Hle|Hlt]; simpl.
  - split; [|by apply IH].
    destruct rows as [|r'' rows]; simpl in *; [done|].
    destruct (key r'' <=? key r); simpl; done.
  - split; [lia|]. done.
Qed.

Lemma order_asc_from (key : SyncLog → Z) (rows sorted : list SyncLog) :
  ascending (map key sorted) →
  let result := foldl (λ sorted r, insert_asc key r sorted) sorted rows in
  ascending (map key result) ∧ result ≡ₚ sorted ++ rows.
Proof.
  revert sorted. induction rows as [|r rows IH]; intros sorted Hs; simpl.
  - by rewrite app_nil_r.
  - destruct (IH (insert_asc key r sorted) (insert_asc_ascending key r sorted Hs))
      as [Ha Hp].
    split; [done|]. rewrite Hp, insert_asc_perm. simpl. apply Permutation_middle.
Qed.

(** [orderBy asc] sorts: the result is in ascending order and holds the
    same rows. *)
Lemma order_asc_sorts (key : SyncLog → Z) (rows : list SyncLog) :
  ascending (map key (order_asc key rows)) ∧ order_asc key rows ≡ₚ rows.
Proof. apply (order_asc_from key rows []). done. Qed.

Lemma ascending_take (n : nat) (ts : list Z) :
  ascending ts → ascending (take n ts).
Proof.
  revert n. induction ts as [|t ts IH]; intros n Ha; [by destruct n|].
  destruct n as [|n]; [done|]. simpl in *. destruct Ha as [Hhd Htl].
  split; [|by apply IH]. by destruct ts, n.
Qed.

Section PullClaims.
Context {T : Type} {models : PrismaModels T} {runtime : Runtime}.
Implicit Types (w : World T).

Lemma pullRecords_run (config : EntitySyncConfig) (syncRecords : list SyncLog)
  (records : list SyncRecord) w :
  has_model (cfg_tableName config) = true →
  ∃ records',
    pullRecords config syncRecords records w = (Ok (records ++ records'), w)
    ∧ map rec_id records' = map log_id syncRecords
    ∧ map rec_timestamp records' = map log_timestamp syncRecords.
Proof.
  intros Hm. revert records.
  induction syncRecords as [|syncRecord rest IH]; intros records; simpl.
  - exists []. by rewrite app_nil_r.
  - unfold bind at 1. unfold pullRecord, bind at 1.
    assert (∃ data,
              (if negb (String.eqb (log_action syncRecord) "DELETE")
               then getEntityData (cfg_tableName config) (log_entityId syncRecord) config
               else ret JNull) w = (Ok data, w)) as (data & ->).
    { destruct (negb _); [by apply getEntityData_ok | by eexists]. }
    simpl.
    match goal with
    | |- context [pullRecords config rest (records ++ [?r]) w] =>
        destruct (IH (records ++ [r])) as (records' & -> & Hids & Hts);
        exists (r :: records')
    end.
    rewrite <- app_assoc. simpl. split; [done|]. by rewrite Hids, Hts.
Qed.

(** A pull of one registered entity type. *)
Lemma pull_of_one_type (userId entityType : string) (config : EntitySyncConfig)
  (since : option Z) (limit : nat) w :
  map_get entityType entityConfigs = Some config →
  has_model (cfg_tableName config) = true →
  let request := {| pull_lastSyncTimestamp := since;
                    pull_entityTypes := Some [entityType];
                    pull_limit := Some limit |} in
  let matching := select (where_pull entityType (default 0 since) userId) (syncLog w) in
  ∃ response w',
    pullData userId request w = (Ok response, w')
    ∧ pull_hasMore response = bool_decide (length (pull_records response) = limit)
    ∧ map rec_id (pull_records response)
      = map log_id (take limit (order_asc log_timestamp matching))
    ∧ order_asc log_timestamp matching ≡ₚ matching
    ∧ ascending (map log_timestamp (order_asc log_timestamp matching))
    ∧ ascending (map rec_timestamp (pull_records response))
    ∧ length (pull_records response) = (limit `min` length matching)%nat
    ∧ (pull_hasMore response = false →
       length (pull_records response) = length matching)
    ∧ (limit = 2%nat → length matching = 5%nat →
       length (pull_records response) = 2%nat ∧ pull_hasMore response = true).
Proof.
  intros Hc Hm request matching.
  destruct (pullRecords_run config
              (syncLog_findMany (where_pull entityType (default 0 since) userId)
                                log_timestamp limit (syncLog w)) [] w Hm)
    as (records & Er & Hids & Hts).
  assert (pullTypes userId (default 0 since) limit [entityType] [] w
          = (Ok records, w)) as Ep.
  { cbn [pullTypes]. rewrite Hc. unfold bind at 1. unfold readLog at 1.
    unfold bind at 1. by rewrite Er. }
  destruct (createSyncToken_run userId w) as (token & w2 & Et & _).
  unfold pullData, request.
  cbn [pull_lastSyncTimestamp pull_entityTypes pull_limit default].
  unfold bind at 1.
  change (id limit) with limit. change (id [entityType]) with [entityType].
  rewrite Ep.
  unfold bind at 1. rewrite Et. unfold bind, newDate, ret.
  eexists _, _. split; [reflexivity|]. simpl.
  unfold syncLog_findMany in Hids, Hts. fold matching in Hids, Hts.
  destruct (order_asc_sorts log_timestamp matching) as [Hasc Hperm].
  assert (length records = (limit `min` length matching)%nat) as Hlen.
  { rewrite <- (length_map rec_id), Hids, length_map, length_take.
    by rewrite Hperm. }
  split.
  { destruct (Nat.eqb_spec (length records) limit) as [He|Hne].
    - by rewrite bool_decide_eq_true_2.
    - by rewrite bool_decide_eq_false_2. }
  split; [done|]. split; [done|]. split; [done|].
  split. { rewrite Hts, <- firstn_map. by apply ascending_take. }
  split; [done|]. split.
  - intros Hmore. apply Nat.eqb_neq in Hmore. lia.
  - intros -> H5. split; [lia|]. apply Nat.eqb_eq. lia.
Qed.
(** C4 (amended).  For every pull, [hasMore] is true iff the number of
    returned records is [limit] (100 when the request has none).  For a
    pull of one registered entity type the returned records are the
    [limit] earliest matching audit-log entries, in ascending timestamp
    order, so that matching records stay undelivered only when [hasMore] is
    true; in particular such a pull with [limit = 2] against 5 matching
    records returns exactly 2 records and [hasMore = true]. *)
Theorem pull_pages (userId : string) w :
  (∀ entityType config,
     map_get entityType entityConfigs = Some config →
     has_model (cfg_tableName config) = true) →
  (∀ request : PullRequest,
     ∃ response w',
       pullData userId request w = (Ok response, w')
       ∧ pull_hasMore response
         = bool_decide (length (pull_records response)
                        = default 100%nat (pull_limit request)))
  ∧ (∀ (entityType : string) (since : option Z) (limit : nat),
       registered entityType →
       let request := {| pull_lastSyncTimestamp := since;
                         pull_entityTypes := Some [entityType];
                         pull_limit := Some limit |} in
       let matching :=
         select (where_pull entityType (default 0 since) userId) (syncLog w) in
       ∃ response w',
         pullData userId request w = (Ok response, w')
         ∧ map rec_id (pull_records response)
           = map log_id (take limit (order_asc log_timestamp matching))
         ∧ order_asc log_timestamp matching ≡ₚ matching
         ∧ ascending (map log_timestamp (order_asc log_timestamp matching))
         ∧ ascending (map rec_timestamp (pull_records response))
         ∧ length (pull_records response) = (limit `min` length matching)%nat
         ∧ (pull_hasMore response = false →
            length (pull_records response) = length matching)
         ∧ (limit = 2%nat → length matching = 5%nat →
            length (pull_records response) = 2%nat
            ∧ pull_hasMore response = true)).
Proof.
  intros Hm. split.
  - intros request. unfold pullData.
    destruct (pullTypes_ok userId (default 0 (pull_lastSyncTimestamp request))
                (default 100%nat (pull_limit request))
                (default (map fst entityConfigs) (pull_entityTypes request))
                [] w Hm) as (records & Ep).
    unfold bind at 1. rewrite Ep.
    destruct (createSyncToken_run userId w) as (token & w2 & Et & _).
    unfold bind at 1. rewrite Et. unfold bind, newDate, ret.
    eexists _, _. split; [reflexivity|]. simpl.
    destruct (Nat.eqb_spec (length records) (default 100%nat (pull_limit request))).
    + by rewrite bool_decide_eq_true_2.
    + by rewrite bool_decide_eq_false_2.
  - intros entityType since limit [config Hc] request matching.
    destruct (pull_of_one_type userId entityType config since limit w Hc (Hm _ _ Hc))
      as (response & w' & E & _ & Hrest).
    by exists response, w'.
Qed.
End PullClaims.


(** ** The claims about the client *)

Section ClientClaims.
Context {runtime : Runtime}.
Variable localUser : option string.





End ClientClaims.

(** ** The claim about the network monitor *)

Section MonitorClaims.
Context {runtime : Runtime}.
Variable maxRetries : nat.
Variable checkConnectionQuality : nat → bool * bool.
Variable getConnectionType : string.

Lemma retryConnection_from (attempt : nat) (prev : NetworkStatus) (d : nat) :
  (attempt ≤ maxRetries)%nat →
  ∃ j events final d',
    retryConnection maxRetries checkConnectionQuality getConnectionType
                    attempt prev d = (events, final, d')
    ∧ (attempt ≤ j ≤ maxRetries)%nat
    ∧ (∀ n, (attempt ≤ n < j)%nat → (checkConnectionQuality n).1 = false)
    ∧ ((j < maxRetries)%nat
       ∧ (checkConnectionQuality j).1 = true
       ∧ events = flat_map failed_attempt (seq attempt (j - attempt))
                  ++ [Wait (delay j); Probe j true]
       ∧ isOnline final = true
       ∧ retryAttempts final = 0%nat
       ∨ j = maxRetries
         ∧ events = flat_map failed_attempt (seq attempt (j - attempt))
         ∧ isOnline final = isOnline prev
         ∧ retryAttempts final = maxRetries).
Proof.
  funelim (retryConnection maxRetries checkConnectionQuality getConnectionType
             attempt prev d); intros Hle.
  - assert (attempt = maxRetries) as -> by lia.
    exists maxRetries. eexists _, _, _. split; [reflexivity|].
    split; [lia|]. split; [intros; lia|]. right.
    rewrite Nat.sub_diag. done.
  - exists attempt. eexists _, _, _. split; [reflexivity|].
    split; [lia|]. split; [intros; lia|]. left.
    rewrite Nat.sub_diag, Heq. done.
  - destruct H as (j & events & final & d' & E & Hj & Hoff & Hend); [lia|].
    rewrite E. exists j. eexists _, _, _. split; [reflexivity|].
    split; [lia|]. split.
    { intros n Hn. destruct (decide (n = attempt)) as [->|Hne].
      - by rewrite Heq.
      - apply Hoff. lia. }
    replace (j - attempt)%nat with (S (j - S attempt)) by lia.
    destruct Hend as [(Hlt & Hon & -> & Ho & Hr)|(-> & -> & Ho & Hr)];
      [left | right]; done.
Qed.

(** The delays: 1 s, 2 s, 4 s, 8 s, 16 s, then 30 s for every later
    attempt. *)
Lemma delay_values (attempt : nat) :
  delay attempt = Z.min (1000 * 2 ^ Z.of_nat attempt) 30000
  ∧ ((attempt ≤ 4)%nat → delay attempt = 1000 * 2 ^ Z.of_nat attempt)
  ∧ ((5 ≤ attempt)%nat → delay attempt = 30000).
Proof.
  unfold delay. split; [done|]. split; intros Hn.
  - assert (2 ^ Z.of_nat attempt ≤ 2 ^ 4) by (apply Z.pow_le_mono_r; lia). lia.
  - assert (2 ^ 5 ≤ 2 ^ Z.of_nat attempt) by (apply Z.pow_le_mono_r; lia). lia.
Qed.

Lemma probe_count_failed (attempt n : nat) :
  probe_count (flat_map failed_attempt (seq attempt n)) = n.
Proof.
  unfold probe_count. revert attempt.
  induction n as [|n IH]; intros attempt; simpl; [done|].
  f_equal. apply IH.
Qed.

(** C9.  The reconnection loop started by an offline transition
    terminates.  It makes at most [maxRetries] probes; the probe of attempt
    [n] (counted from 0) is preceded by a wait of
    [min(1000 * 2^n, 30000)] milliseconds; the loop ends either with the
    first probe that reports the server online, and then [retryAttempts]
    is reset to 0, or after [maxRetries] probes that all failed, and then
    [retryAttempts] is [maxRetries]. *)
Theorem reconnection_is_bounded (prev : NetworkStatus) (d : nat) :
  ∃ j events final d',
    retryConnection maxRetries checkConnectionQuality getConnectionType 0 prev d
    = (events, final, d')
    ∧ (probe_count events ≤ maxRetries)%nat
    ∧ (∀ n, (n < j)%nat → (checkConnectionQuality n).1 = false)
    ∧ ((j < maxRetries)%nat
       ∧ (checkConnectionQuality j).1 = true
       ∧ events = flat_map (λ n, [Wait (Z.min (1000 * 2 ^ Z.of_nat n) 30000);
                                  Probe n false]) (seq 0 j)
                  ++ [Wait (Z.min (1000 * 2 ^ Z.of_nat j) 30000); Probe j true]
       ∧ probe_count events = S j
       ∧ isOnline final = true
       ∧ retryAttempts final = 0%nat
       ∨ j = maxRetries
         ∧ events = flat_map (λ n, [Wait (Z.min (1000 * 2 ^ Z.of_nat n) 30000);
                                    Probe n false]) (seq 0 j)
         ∧ probe_count events = maxRetries
         ∧ isOnline final = isOnline prev
         ∧ retryAttempts final = maxRetries).
Proof.
  destruct (retryConnection_from 0 prev d)
    as (j & events & final & d' & E & Hj & Hoff & Hend); [lia|].
  exists j, events, final, d'. split; [done|].
  rewrite Nat.sub_0_r in Hend.
  assert (probe_count events = (if decide (j < maxRetries)%nat then S j else j)
          ∧ ((j < maxRetries)%nat ∨ j = maxRetries)) as [Hcount Hcases].
  { destruct Hend as [(Hlt & _ & -> & _)|(-> & -> & _)].
    - rewrite decide_True by done. split; [|by left].
      unfold probe_count. rewrite filter_app, length_app.
      fold (probe_count (flat_map failed_attempt (seq 0 j))).
      rewrite probe_count_failed. simpl. lia.
    - rewrite decide_False by lia. split; [|by right].
      apply probe_count_failed. }
  split; [destruct (decide _); lia|].
  split; [intros n Hn; apply Hoff; lia|].
  destruct Hend as [(Hlt & Hon & Hev & Ho & Hr)|(Hjm & Hev & Ho & Hr)].
  - left. rewrite decide_True in Hcount by done. done.
  - right. rewrite decide_False in Hcount by lia. subst j. done.
Qed.
End MonitorClaims.

(** ** The claims on concrete databases *)

Section Concrete.
#[local] Existing Instance test_runtime.

Lemma mem_models_exist (entityType : string) (config : EntitySyncConfig) :
  map_get entityType entityConfigs = Some config →
  has_model (cfg_tableName config) = true.
Proof.
  intros Hc. pose proof (registered_cases _ _ Hc) as [->|[->| ->]];
    vm_compute in Hc; by inversion Hc.
Defined.

(** C1, as stated, fails: a record of the entity type [message], which
    the client sends but the service has no configuration for, is pushed
    with [serverVersion = 0 <= clientVersion = 0]; it is not accepted and
    nothing is applied. *)
Lemma unregistered_type_is_not_accepted :
  let record := sync_record "r1" "message" "m1" "CREATE" (JObj [("text", JStr "hi")]) in
  let syncToken := token_of "u1" [] in
  entity_version "message" "m1" (syncLog empty_world)
  ≤ token_version "message" syncToken
  ∧ ∃ response w',
      pushData "u1" {| push_records := [record]; push_syncToken := syncToken |}
               empty_world = (Ok response, w')
      ∧ (rec_id record ∉ push_accepted response)
      ∧ push_rejected response
        = [{| rej_id := "r1";
              rej_reason := "Entity type message not configured";
              rej_conflictData := None |}]
      ∧ entities w' = entities empty_world
      ∧ syncLog w' = syncLog empty_world.
Proof.
  split; [by vm_compute|].
  eexists _, _. split; [vm_compute; reflexivity|].
  split; [apply not_elem_of_nil|]. by vm_compute.
Qed.

(** The scenario of the specification: the client knows version 3 of the
    tasks, the task is at version 5; the update is rejected as a conflict
    with [serverVersion = 5] and changes nothing. *)
Lemma conflict_detection_witness :
  let record := sync_record "r1" "task" "t1" "UPDATE" (JObj [("title", JStr "client")]) in
  let syncToken := token_of "u1" [("task", 3)] in
  map_get "task" entityConfigs = Some task_config
  ∧ has_model "task" = true
  ∧ ∃ response w',
      pushData "u1" {| push_records := [record]; push_syncToken := syncToken |}
               task_world = (Ok response, w')
      ∧ {| rej_id := "r1"; rej_reason := "CONFLICT";
           rej_conflictData :=
             Some {| serverVersion := 5; clientVersion := 3;
                     serverData := JObj [("id", JStr "t1"); ("title", JStr "server")];
                     clientData := JObj [("title", JStr "client")] |} |}
        ∈ push_rejected response.
Proof.
  intros record syncToken.
  split; [reflexivity|]. split; [reflexivity|].
  destruct (conflict_detection (models := mem_models) "u1" syncToken [] [] record
              task_config task_world eq_refl eq_refl) as (response & w' & E & Hconflict & _).
  exists response, w'. split; [exact E|].
  destruct Hconflict as (_ & data & Hdata & Hin); [by vm_compute|].
  vm_compute in Hdata. inversion Hdata; subst data. exact Hin.
Defined.

(** C2, as stated, fails: the record [a5] is in the audit log; pushed
    again with a token that is not behind, its update is applied to the
    task a second time before the append is refused. *)
Lemma resubmitted_update_is_reapplied :
  let record := sync_record "a5" "task" "t1" "UPDATE" (JObj [("title", JStr "again")]) in
  let syncToken := token_of "u2" [("task", 5)] in
  rec_id record ∈ log_ids (syncLog task_world)
  ∧ ∃ response w',
      pushData "u2" {| push_records := [record]; push_syncToken := syncToken |}
               task_world = (Ok response, w')
      ∧ entities w'
        = [("task", "t1", [("id", JStr "t1"); ("title", JStr "again");
                           ("updatedAt", JDate 1000)])]
      ∧ entities w' ≠ entities task_world.
Proof.
  split; [vm_compute; repeat constructor|].
  eexists _, _. split; [vm_compute; reflexivity|].
  split; [reflexivity | discriminate].
Qed.

Lemma resubmitted_id_witness :
  let record := sync_record "a5" "task" "t1" "UPDATE" (JObj [("title", JStr "again")]) in
  let request := {| push_records := [record];
                    push_syncToken := token_of "u2" [("task", 5)] |} in
  record ∈ push_records request
  ∧ rec_id record ∈ log_ids (syncLog task_world)
  ∧ ∃ response w',
      pushData "u2" request task_world = (Ok response, w')
      ∧ (rec_id record ∉ push_accepted response)
      ∧ ∃ rows, syncLog w' = syncLog task_world ++ rows ∧ rec_id record ∉ log_ids rows.
Proof.
  intros record request.
  assert (record ∈ push_records request) as Hin by constructor.
  assert (rec_id record ∈ log_ids (syncLog task_world)) as Hold
    by (vm_compute; repeat constructor).
  split; [exact Hin|]. split; [exact Hold|].
  destruct (resubmitted_id_is_not_appended "u2" request record task_world Hin Hold)
    as (response & w' & E & Hna & _ & Hrows).
  exists response, w'. split; [exact E|]. split; [exact Hna | exact Hrows].
Defined.

(** C3.  The conflict of the scenario above cannot be resolved: the
    rejected record [r1] was never written to the audit log, where
    [resolveConflict] looks it up, so CLIENT_WINS throws and appends
    nothing. *)
Theorem client_wins_fails_on_rejected_record :
  let record := sync_record "r1" "task" "t1" "UPDATE" (JObj [("title", JStr "client")]) in
  let syncToken := token_of "u1" [("task", 3)] in
  ∃ response w',
    pushData "u1" {| push_records := [record]; push_syncToken := syncToken |}
             task_world = (Ok response, w')
    ∧ map rej_id (push_rejected response) = ["r1"]
    ∧ map rej_reason (push_rejected response) = ["CONFLICT"]
    ∧ resolveConflict "u1" {| res_recordId := "r1"; res_strategy := "CLIENT_WINS";
                              res_mergedData := None |} w'
      = (Throw (ErrorObj "Sync record not found"), w')
    ∧ syncLog w' = syncLog task_world.
Proof.
  eexists _, _. split; [vm_compute; reflexivity|]. by vm_compute.
Qed.

(** C4, as stated, fails: five records match a pull with [limit = 2],
    three tasks and two projects.  The limit is applied to each entity
    type: the answer has four records, not in timestamp order, and
    [hasMore] is false although the task [b5] was not delivered. *)
Lemma pull_has_more_counts_all_types :
  let request := {| pull_lastSyncTimestamp := None; pull_entityTypes := None;
                    pull_limit := Some 2%nat |} in
  length (select (λ r, 0 <? log_timestamp r) (syncLog mixed_world)) = 5%nat
  ∧ ∃ response w',
      pullData "u1" request mixed_world = (Ok response, w')
      ∧ map rec_id (pull_records response) = ["b1"; "b3"; "b2"; "b4"]
      ∧ map rec_timestamp (pull_records response) = [10; 30; 20; 40]
      ∧ pull_hasMore response = false.
Proof.
  split; [by vm_compute|].
  eexists _, _. split; [vm_compute; reflexivity|]. by vm_compute.
Qed.

(** C5, as stated, fails: the audit log holds version 5 of a task, written
    by [u2]; the token that a pull returns to [u1] says 0 for tasks. *)
Lemma token_ignores_rows_of_others :
  let request := {| pull_lastSyncTimestamp := None; pull_entityTypes := None;
                    pull_limit := None |} in
  ∃ response w',
    pullData "u1" request task_world = (Ok response, w')
    ∧ tok_entityVersions (pull_syncToken response) !! "task" = Some 0
    ∧ type_version "task" (syncLog w') = 5
    ∧ tok_entityVersions (pull_syncToken response) !! "task"
      ≠ Some (type_version "task" (syncLog w')).
Proof.
  eexists _, _. split; [vm_compute; reflexivity|].
  split; [by vm_compute|]. split; [by vm_compute|]. by vm_compute.
Qed.

Lemma token_versions_witness :
  (∀ entityType config,
     map_get entityType entityConfigs = Some config →
     has_model (cfg_tableName config) = true)
  ∧ ∃ response w',
      pushData "u2" {| push_records := []; push_syncToken := token_of "u2" [] |}
               task_world = (Ok response, w')
      ∧ tok_entityVersions (push_newSyncToken response) !! "task"
        = Some (own_type_version "task" "u2" (syncLog w')).
Proof.
  split; [exact mem_models_exist|].
  destruct (token_versions_are_recomputed "u2" task_world mem_models_exist)
    as [Hpush _].
  destruct (Hpush {| push_records := []; push_syncToken := token_of "u2" [] |})
    as (response & w' & E & Hv).
  exists response, w'. split; [exact E|]. apply Hv. by eexists.
Defined.

(** The scenario of the specification for pull: five records of tasks
    match, the limit is 2. *)
Lemma pull_pages_witness :
  (∀ entityType config,
     map_get entityType entityConfigs = Some config →
     has_model (cfg_tableName config) = true)
  ∧ length (select (where_pull "task" 0 "u1") (syncLog task_world)) = 5%nat
  ∧ ∃ response w',
      pullData "u1" {| pull_lastSyncTimestamp := None;
                       pull_entityTypes := Some ["task"];
                       pull_limit := Some 2%nat |} task_world
      = (Ok response, w')
      ∧ map rec_id (pull_records response) = ["a1"; "a2"]
      ∧ length (pull_records response) = 2%nat
      ∧ pull_hasMore response = true.
Proof.
  split; [exact mem_models_exist|]. split; [reflexivity|].
  destruct (pull_pages "u1" task_world mem_models_exist) as [_ Hone].
  destruct (Hone "task" None 2%nat (ex_intro _ task_config eq_refl))
    as (response & w' & E & Hids & _ & _ & _ & _ & _ & H25).
  exists response, w'. split; [exact E|]. split; [exact Hids|].
  exact (H25 eq_refl eq_refl).
Defined.


End Concrete.

(** ** Further properties of the service *)

Lemma obj_get_delete_same (k : string) (o : jobject) :
  obj_get k (obj_delete k o) = None.
Proof.
  unfold obj_delete. induction o as [|[k' v] o IH]; [done|].
  destruct (String.eqb_spec k k') as [->|Hne].
  - rewrite filter_cons_False; [done|]. simpl. by rewrite String.eqb_refl.
  - rewrite filter_cons_True.
    + simpl. by destruct (String.eqb_spec k k').
    + simpl. by apply negb_true_iff, String.eqb_neq.
Qed.

Lemma obj_get_delete_none (k k' : string) (o : jobject) :
  obj_get k o = None → obj_get k (obj_delete k' o) = None.
Proof.
  unfold obj_delete. induction o as [|[k1 v] o IH]; [done|].
  simpl. destruct (String.eqb_spec k k1) as [->|Hne]; [done|].
  intros Hn. rewrite filter_cons. destruct (decide _); [|by apply IH].
  simpl. destruct (String.eqb_spec k k1); [done | by apply IH].
Qed.

Lemma obj_get_delete_all (k : string) (excluded : list string) (o : jobject) :
  k ∈ excluded ∨ obj_get k o = None →
  obj_get k (foldl (λ o field, obj_delete field o) o excluded) = None.
Proof.
  revert o. induction excluded as [|k' excluded IH]; intros o Hk; simpl.
  - destruct Hk as [Hk|Hk]; [by apply elem_of_nil in Hk | done].
  - apply IH. destruct Hk as [Hk|Hk].
    + apply elem_of_cons in Hk as [->|Hk]; [right; apply obj_get_delete_same | by left].
    + right. by apply obj_get_delete_none.
Qed.

Lemma findMany_selected (p : SyncLog → bool) (key : SyncLog → Z) (limit : nat)
  (rows : list SyncLog) (r : SyncLog) :
  r ∈ syncLog_findMany p key limit rows → r ∈ rows ∧ p r = true.
Proof.
  unfold syncLog_findMany. intros Hin.
  apply subseteq_take in Hin.
  destruct (order_asc_sorts key (select p rows)) as [_ Hperm].
  rewrite Hperm in Hin. unfold select in Hin.
  apply list_elem_of_filter in Hin as [? ?]. done.
Qed.

Lemma findMany_length (p : SyncLog → bool) (key : SyncLog → Z) (limit : nat)
  (rows : list SyncLog) :
  (length (syncLog_findMany p key limit rows) ≤ limit)%nat.
Proof. unfold syncLog_findMany. rewrite length_take. lia. Qed.

Section ServerExtras.
Context {T : Type} {models : PrismaModels T} {runtime : Runtime}.
Implicit Types (w : World T) (record : SyncRecord) (syncToken : SyncToken).

Lemma getEntityData_snapshot (tableName entityId : string) (config : EntitySyncConfig) w :
  has_model tableName = true →
  getEntityData tableName entityId config w
  = (Ok (entity_snapshot tableName entityId config (entities w)), w).
Proof.
  intros Hm. unfold getEntityData, entity_snapshot. rewrite Hm. run.
  by destruct (model_findUnique _ _ _ _), (cfg_excludeFields config).
Qed.

Lemma pullRecords_map (config : EntitySyncConfig) (syncRecords : list SyncLog)
  (records : list SyncRecord) w :
  has_model (cfg_tableName config) = true →
  pullRecords config syncRecords records w
  = (Ok (records ++ map (record_of config (entities w)) syncRecords), w).
Proof.
  intros Hm. revert records.
  induction syncRecords as [|syncRecord rest IH]; intros records; simpl.
  - by rewrite app_nil_r.
  - unfold bind at 1. unfold pullRecord, bind at 1.
    assert ((if negb (String.eqb (log_action syncRecord) "DELETE")
             then getEntityData (cfg_tableName config) (log_entityId syncRecord) config
             else ret JNull) w
            = (Ok (rec_data (record_of config (entities w) syncRecord)), w)) as ->.
    { simpl. destruct (negb _); [by apply getEntityData_snapshot | done]. }
    simpl. rewrite IH, <- app_assoc. done.
Qed.

Lemma pullTypes_pages (userId : string) (since : Z) (limit : nat)
  (entityTypes : list string) (records : list SyncRecord) w :
  (∀ entityType config,
     map_get entityType entityConfigs = Some config →
     has_model (cfg_tableName config) = true) →
  pullTypes userId since limit entityTypes records w
  = (Ok (records
         ++ flat_map (page_of userId since limit (entities w) (syncLog w)) entityTypes),
     w).
Proof.
  intros Hm. revert records.
  induction entityTypes as [|entityType rest IH]; intros records; cbn [pullTypes flat_map].
  - by rewrite app_nil_r.
  - unfold page_of at 1.
    destruct (map_get entityType entityConfigs) as [config|] eqn:Hc.
    + unfold bind at 1. unfold readLog at 1. unfold bind at 1.
      rewrite (pullRecords_map config _ records w (Hm _ _ Hc)).
      rewrite IH, <- app_assoc. done.
    + by rewrite IH.
Qed.

Lemma pullData_pages (userId : string) (request : PullRequest) w :
  (∀ entityType config,
     map_get entityType entityConfigs = Some config →
     has_model (cfg_tableName config) = true) →
  ∃ response w',
    pullData userId request w = (Ok response, w')
    ∧ entities w' = entities w ∧ syncLog w' = syncLog w ∧ uuids w' = uuids w
    ∧ pull_records response
      = flat_map (page_of userId (default 0 (pull_lastSyncTimestamp request))
                          (default 100%nat (pull_limit request))
                          (entities w) (syncLog w))
                 (default (map fst entityConfigs) (pull_entityTypes request)).
Proof.
  intros Hm. unfold pullData. unfold bind at 1.
  rewrite (pullTypes_pages _ _ _ _ [] w Hm).
  destruct (createSyncToken_run userId w) as (token & w2 & Et & He & Hl & Hu & _).
  unfold bind at 1. rewrite Et. unfold bind, newDate, ret.
  eexists _, _. split; [reflexivity|]. simpl. done.
Qed.

Lemma elem_of_flat_map {A B} (f : A → list B) (xs : list A) (y : B) :
  y ∈ flat_map f xs ↔ ∃ x, x ∈ xs ∧ y ∈ f x.
Proof.
  induction xs as [|x xs IH]; simpl.
  - split; [by intros ?%elem_of_nil | by intros (x & ?%elem_of_nil & _)].
  - rewrite elem_of_app, IH. split.
    + intros [Hy|(x' & Hx' & Hy)].
      * exists x. split; [by apply elem_of_cons; left | done].
      * exists x'. split; [by apply elem_of_cons; right | done].
    + intros (x' & Hx' & Hy). apply elem_of_cons in Hx' as [->|Hx'];
        [by left | right; by exists x'].
Qed.

Lemma page_of_rows (userId : string) (since : Z) (limit : nat) (t : T)
  (rows : list SyncLog) (entityType : string) (r : SyncRecord) :
  r ∈ page_of userId since limit t rows entityType →
  ∃ row config,
    map_get entityType entityConfigs = Some config
    ∧ row ∈ rows
    ∧ where_pull entityType since userId row = true
    ∧ r = record_of config t row.
Proof.
  unfold page_of. destruct (map_get entityType entityConfigs) as [config|];
    [|by intros ?%elem_of_nil].
  intros (row & -> & Hrow)%list_elem_of_fmap.
  apply findMany_selected in Hrow as [Hin Hp]. by exists row, config.
Qed.

(** X1.  A pull only reads: it leaves the entities and the audit log as
    they are.  Every record that it returns renders a row of the audit log
    whose entity type is registered and among the requested ones, that was
    written by another user, after the requested instant. *)
Theorem pull_delivers_rows_of_others (userId : string) (request : PullRequest) w :
  (∀ entityType config,
     map_get entityType entityConfigs = Some config →
     has_model (cfg_tableName config) = true) →
  let since := default 0 (pull_lastSyncTimestamp request) in
  let entityTypes := default (map fst entityConfigs) (pull_entityTypes request) in
  ∃ response w',
    pullData userId request w = (Ok response, w')
    ∧ entities w' = entities w
    ∧ syncLog w' = syncLog w
    ∧ ∀ r, r ∈ pull_records response →
        ∃ row config,
          row ∈ syncLog w
          ∧ map_get (log_entityType row) entityConfigs = Some config
          ∧ r = record_of config (entities w) row
          ∧ log_entityType row ∈ entityTypes
          ∧ log_userId row ≠ userId
          ∧ since < log_timestamp row.
Proof.
  intros Hm since entityTypes.
  destruct (pullData_pages userId request w Hm)
    as (response & w' & E & He & Hl & _ & Hrecords).
  exists response, w'. split; [done|]. split; [done|]. split; [done|].
  intros r Hr. rewrite Hrecords in Hr.
  apply elem_of_flat_map in Hr as (entityType & Htype & Hr).
  apply page_of_rows in Hr as (row & config & Hc & Hin & Hp & ->).
  unfold where_pull in Hp.
  apply andb_prop in Hp as [Hp Hu]. apply andb_prop in Hp as [Ht Hs].
  apply String.eqb_eq in Ht. apply Z.ltb_lt in Hs.
  apply negb_true_iff, String.eqb_neq in Hu.
  exists row, config. rewrite Ht. done.
Qed.

Lemma flat_map_length_bound {A B} (f : A → list B) (n : nat) (xs : list A) :
  (∀ x, length (f x) ≤ n)%nat → (length (flat_map f xs) ≤ n * length xs)%nat.
Proof.
  intros Hf. induction xs as [|x xs IH]; simpl; [lia|].
  rewrite length_app. specialize (Hf x). lia.
Qed.

(** X2.  The page of a pull holds at most [limit] records for each
    requested entity type (100 when the request gives no limit): at most
    [limit] times the number of requested types, and at most [3 * limit]
    when the request names no types. *)
Theorem pull_page_size (userId : string) (request : PullRequest) w :
  (∀ entityType config,
     map_get entityType entityConfigs = Some config →
     has_model (cfg_tableName config) = true) →
  let limit := default 100%nat (pull_limit request) in
  ∃ response w',
    pullData userId request w = (Ok response, w')
    ∧ (∀ entityTypes, pull_entityTypes request = Some entityTypes →
         length (pull_records response) ≤ limit * length entityTypes)%nat
    ∧ (pull_entityTypes request = None →
         length (pull_records response) ≤ 3 * limit)%nat.
Proof.
  intros Hm limit.
  destruct (pullData_pages userId request w Hm)
    as (response & w' & E & _ & _ & _ & Hrecords).
  exists response, w'. split; [done|].
  assert (∀ entityType,
            (length (page_of userId (default 0%Z (pull_lastSyncTimestamp request)) limit
                             (entities w) (syncLog w) entityType) ≤ limit)%nat) as Hpage.
  { intros entityType. unfold page_of.
    destruct (map_get entityType entityConfigs); simpl; [|lia].
    rewrite length_map. apply findMany_length. }
  split.
  - intros entityTypes Ht. rewrite Hrecords, Ht. simpl.
    by apply flat_map_length_bound.
  - intros Ht. rewrite Hrecords, Ht. simpl.
    pose proof (flat_map_length_bound _ limit (map fst entityConfigs) Hpage) as Hb.
    simpl in Hb. fold limit. lia.
Qed.

(** X3.  The data of a pulled record: none for a DELETE; otherwise the
    current row of the entity, from which the fields excluded by the
    configuration of its type are removed.  In particular the data of a
    pulled user has no field [password] and no field [refreshToken]. *)
Theorem pull_data_hides_excluded_fields (userId : string) (request : PullRequest) w :
  (∀ entityType config,
     map_get entityType entityConfigs = Some config →
     has_model (cfg_tableName config) = true) →
  ∃ response w',
    pullData userId request w = (Ok response, w')
    ∧ ∀ r, r ∈ pull_records response →
        (rec_action r = "DELETE" → rec_data r = JNull)
        ∧ (∀ config excluded field fields,
             map_get (rec_entityType r) entityConfigs = Some config →
             cfg_excludeFields config = Some excluded →
             field ∈ excluded →
             rec_data r = JObj fields →
             obj_get field fields = None)
        ∧ (rec_entityType r = "user" →
           ∀ fields, rec_data r = JObj fields →
                     obj_get "password" fields = None
                     ∧ obj_get "refreshToken" fields = None).
Proof.
  intros Hm.
  destruct (pullData_pages userId request w Hm)
    as (response & w' & E & _ & _ & _ & Hrecords).
  exists response, w'. split; [done|]. intros r Hr. rewrite Hrecords in Hr.
  apply elem_of_flat_map in Hr as (entityType & _ & Hr).
  apply page_of_rows in Hr as (row & config & Hc & _ & Hp & ->).
  apply andb_prop in Hp as [Hp _]. apply andb_prop in Hp as [Ht _].
  apply String.eqb_eq in Ht. rewrite <- Ht in Hc.
  assert (∀ excluded field fields,
            cfg_excludeFields config = Some excluded →
            field ∈ excluded →
            rec_data (record_of config (entities w) row) = JObj fields →
            obj_get field fields = None) as Hex.
  { intros excluded field fields Hx Hf. simpl.
    destruct (negb _); [|done]. unfold entity_snapshot. rewrite Hx.
    destruct (model_findUnique _ _ _ _); [|done].
    intros [= <-]. apply obj_get_delete_all. by left. }
  change (rec_entityType (record_of config (entities w) row))
    with (log_entityType row).
  split; [|split].
  - simpl. by intros ->.
  - intros config' excluded field fields Hc'. rewrite Hc in Hc'.
    injection Hc' as <-. apply Hex.
  - intros Hu fields Hd. rewrite Hu in Hc. vm_compute in Hc.
    injection Hc as <-.
    split; eapply Hex; try exact Hd; try reflexivity.
    + apply elem_of_cons. by left.
    + apply elem_of_cons. right. apply elem_of_cons. by left.
Qed.

(** What a successful [applyChange] tells about its record. *)
Lemma applyChange_ok record (userId : string) w wa :
  applyChange record userId w = (Ok tt, wa) →
  ∃ config,
    map_get (rec_entityType record) entityConfigs = Some config
    ∧ has_model (cfg_tableName config) = true
    ∧ (rec_action record = "CREATE" ∨ rec_action record = "UPDATE"
       ∨ rec_action record = "DELETE").
Proof.
  unfold applyChange. destruct (map_get _ _) as [config|]; [|done].
  destruct (has_model _) eqn:Hm; [|done]. simpl.
  destruct (String.eqb_spec (rec_action record) "CREATE"); [eauto 6|].
  destruct (String.eqb_spec (rec_action record) "UPDATE"); [eauto 6|].
  destruct (String.eqb_spec (rec_action record) "DELETE"); [eauto 6|].
  done.
Qed.

(** X4.  A record that a push accepts has a registered entity type whose
    table has a model, one of the actions CREATE, UPDATE and DELETE, and an
    entity whose highest audit-log version, when its turn comes, does not
    exceed the version of the token for its type. *)
Theorem accepted_records_are_well_formed (userId : string) (request : PushRequest) w :
  let syncToken := push_syncToken request in
  ∃ response w',
    pushData userId request w = (Ok response, w')
    ∧ ∀ before record after,
        push_records request = before ++ record :: after →
        let w1 := state_after userId syncToken before w in
        let w2 := state_after userId syncToken (before ++ [record]) w in
        pushRecord userId syncToken record ([], []) w1
        = (Ok ([rec_id record], []), w2) →
        (∃ config,
           map_get (rec_entityType record) entityConfigs = Some config
           ∧ has_model (cfg_tableName config) = true)
        ∧ (rec_action record = "CREATE" ∨ rec_action record = "UPDATE"
           ∨ rec_action record = "DELETE")
        ∧ entity_version (rec_entityType record) (rec_entityId record) (syncLog w1)
          ≤ token_version (rec_entityType record) syncToken
        ∧ rec_id record ∉ log_ids (syncLog w1).
Proof.
  intros syncToken.
  destruct (pushData_run userId request w)
    as (o & w3 & response & w' & B & E & _).
  exists response, w'. split; [done|].
  intros before record after Hrecords w1 w2 Hacc.
  fold syncToken in B. rewrite Hrecords in B.
  destruct (batch_turn _ _ _ _ _ _ _ _ B) as (o2 & P & _ & _).
  fold w1 w2 in P.
  pose proof (pushed_pushRecord _ _ _ _ _ _ P) as E2.
  rewrite Hacc in E2. injection E2 as <-.
  destruct (pushed_log _ _ _ _ _ _ P) as [[_ Hnil]|(t & _ & _ & Hfresh)];
    [discriminate|].
  inversion P as [|wa wb Hd Hap Hlog| | |]; subst.
  destruct (applyChange_ok _ _ _ _ Hap) as (config & Hc & Hm & Hact).
  split; [by eauto|]. split; [done|]. split; [|done].
  rewrite (detectConflict_registered record syncToken config w1 Hc) in Hd.
  destruct (Z.ltb_spec (token_version (rec_entityType record) syncToken)
              (entity_version (rec_entityType record) (rec_entityId record)
                              (syncLog w1))) as [Hlt|Hge]; [|done].
  destruct (getEntityData_ok (cfg_tableName config) (rec_entityId record) config w1 Hm)
    as (data & Hg).
  rewrite Hg in Hd. discriminate.
Qed.

(** X5.  A pushed record whose entity type has no configuration is
    rejected with the reason [Entity type ... not configured], whatever its
    version and the token; neither the entities nor the audit log change,
    and the records after it get their turn. *)
Theorem unregistered_type_is_rejected (userId : string) syncToken
  (before after : list SyncRecord) record w :
  map_get (rec_entityType record) entityConfigs = None →
  let request := {| push_records := before ++ record :: after;
                    push_syncToken := syncToken |} in
  ∃ response w',
    pushData userId request w = (Ok response, w')
    ∧ {| rej_id := rec_id record;
         rej_reason := "Entity type " +:+ rec_entityType record +:+ " not configured";
         rej_conflictData := None |} ∈ push_rejected response
    ∧ state_after userId syncToken (before ++ [record]) w
      = state_after userId syncToken before w
    ∧ (length (push_accepted response) + length (push_rejected response)
       = length before + 1 + length after)%nat.
Proof.
  intros Hc request.
  destruct (pushData_run userId request w)
    as (o & w3 & response & w' & B & E & Ha & Hr & _).
  exists response, w'. split; [done|]. simpl in B.
  destruct (batch_counts _ _ _ _ _ _ B) as [Hlen _].
  destruct (batch_turn _ _ _ _ _ _ _ _ B) as (o2 & P & _ & Hin2).
  pose proof (detectConflict_unregistered record syncToken
                (state_after userId syncToken before w) Hc) as Hd.
  pose proof (applyChange_unregistered record userId
                (state_after userId syncToken before w) Hc) as Hap.
  inversion P; subst; same_run.
  split; [|split].
  - rewrite Hr. apply Hin2. simpl. by apply list_elem_of_singleton.
  - done.
  - rewrite Ha, Hr, Hlen, length_app. simpl. lia.
Qed.

(** The rows that a batch appends. *)
Lemma batch_rows (userId : string) syncToken (records : list SyncRecord) w o w' :
  batch userId syncToken records w o w' →
  ∃ rows,
    syncLog w' = syncLog w ++ rows
    ∧ log_ids rows = o.1
    ∧ Forall (λ row,
                log_userId row = userId
                ∧ log_checksum row = Some (md5_json (log_data row))
                ∧ ∃ record, record ∈ records
                            ∧ log_id row = rec_id record
                            ∧ log_entityType row = rec_entityType record
                            ∧ log_entityId row = rec_entityId record
                            ∧ log_action row = rec_action record
                            ∧ log_data row = rec_data record) rows
    ∧ (NoDup (log_ids (syncLog w)) → NoDup (log_ids (syncLog w'))).
Proof.
  induction 1 as [w|record rest w o1 w1 o2 w2 P B (rows & Hl & Hids & Hall & Hnd)].
  - exists []. rewrite app_nil_r.
    split; [done|]. split; [done|]. split; [constructor | done].
  - assert (Forall (λ row,
                log_userId row = userId
                ∧ log_checksum row = Some (md5_json (log_data row))
                ∧ ∃ record', record' ∈ record :: rest
                            ∧ log_id row = rec_id record'
                            ∧ log_entityType row = rec_entityType record'
                            ∧ log_entityId row = rec_entityId record'
                            ∧ log_action row = rec_action record'
                            ∧ log_data row = rec_data record') rows) as Hall'.
    { eapply Forall_impl; [exact Hall|]. intros row (Hu & Hk & record' & Hin & Hrest).
      split; [done|]. split; [done|]. exists record'.
      split; [by apply elem_of_cons; right | done]. }
    destruct (pushed_log _ _ _ _ _ _ P) as [[E Hnil]|(t & E & -> & Hn)].
    + exists rows. split; [by rewrite Hl, E|]. split; [by rewrite Hnil|].
      split; [exact Hall'|]. intros Hnd0. apply Hnd. by rewrite E.
    + exists (new_row record userId (syncLog w) t :: rows).
      split; [by rewrite Hl, E, <- app_assoc|]. split; [by simpl; rewrite Hids|].
      split.
      * constructor; [|exact Hall']. simpl. split; [done|]. split; [done|].
        exists record. split; [by apply elem_of_cons; left | done].
      * intros Hnd0. apply Hnd. rewrite E.
        unfold log_ids. rewrite map_app. simpl.
        apply NoDup_app. split; [done|]. split.
        -- intros id Hin Hin'. apply list_elem_of_singleton in Hin'. by subst.
        -- apply NoDup_singleton.
Qed.

(** X6.  A push only appends to the audit log: the rows that were there
    stay, in place; one row is added per accepted id, in the order of
    acceptance, written in the name of the pushing user, with the entity,
    the action and the data of a submitted record and the checksum of that
    data; and the ids of the log stay pairwise distinct. *)
Theorem push_appends_attributed_rows (userId : string) (request : PushRequest) w :
  ∃ response w',
    pushData userId request w = (Ok response, w')
    ∧ ∃ rows,
        syncLog w' = syncLog w ++ rows
        ∧ map log_id rows = push_accepted response
        ∧ (∀ row, row ∈ rows →
             log_userId row = userId
             ∧ log_checksum row = Some (md5_json (log_data row))
             ∧ ∃ record, record ∈ push_records request
                         ∧ log_id row = rec_id record
                         ∧ log_entityType row = rec_entityType record
                         ∧ log_entityId row = rec_entityId record
                         ∧ log_action row = rec_action record
                         ∧ log_data row = rec_data record)
        ∧ (NoDup (log_ids (syncLog w)) → NoDup (log_ids (syncLog w'))).
Proof.
  destruct (pushData_run userId request w)
    as (o & w1 & response & w' & B & E & Ha & _ & _ & _ & Hl).
  exists response, w'. split; [done|].
  destruct (batch_rows _ _ _ _ _ _ B) as (rows & Hlog & Hids & Hall & Hnd).
  exists rows. rewrite Hl, Ha. split; [done|]. split; [done|].
  split; [|done]. intros row Hin. by apply (proj1 (Forall_forall _ _) Hall).
Qed.

Lemma entity_version_append record (userId : string) (rows : list SyncLog) (t : Z)
  (entityType entityId : string) :
  entity_version entityType entityId (rows ++ [new_row record userId rows t])
  = if where_entity entityType entityId (new_row record userId rows t)
    then entity_version entityType entityId rows + 1
    else entity_version entityType entityId rows.
Proof.
  unfold entity_version at 1. rewrite select_app. unfold select at 2.
  rewrite filter_cons, filter_nil.
  destruct (where_entity entityType entityId (new_row record userId rows t)) eqn:Hw.
  - rewrite decide_True by done. unfold highest_version. rewrite max_version_app.
    apply andb_prop in Hw as [Ht Hi]. apply String.eqb_eq in Ht, Hi.
    simpl in Ht, Hi. subst entityType entityId. simpl.
    unfold entity_version, highest_version.
    destruct (max_version _); simpl; lia.
  - rewrite decide_False by done. by rewrite app_nil_r.
Qed.

(** The highest row of an entity was written by [userId]. *)
Lemma top_row_append record (userId : string) (rows : list SyncLog) (t : Z)
  (entityType entityId : string) :
  where_entity entityType entityId (new_row record userId rows t) = true
  ∨ (∃ row, row ∈ rows ∧ where_entity entityType entityId row = true
            ∧ log_userId row = userId
            ∧ log_version row = entity_version entityType entityId rows) →
  ∃ row, row ∈ rows ++ [new_row record userId rows t]
         ∧ where_entity entityType entityId row = true
         ∧ log_userId row = userId
         ∧ log_version row
           = entity_version entityType entityId (rows ++ [new_row record userId rows t]).
Proof.
  rewrite entity_version_append.
  destruct (where_entity entityType entityId (new_row record userId rows t)) eqn:Hw.
  - intros _. exists (new_row record userId rows t).
    split; [apply elem_of_app; right; by apply list_elem_of_singleton|].
    split; [done|]. split; [done|]. simpl.
    apply andb_prop in Hw as [Ht Hi]. apply String.eqb_eq in Ht, Hi.
    simpl in Ht, Hi. by subst.
  - intros [?|(row & Hin & Hrow)]; [done|]. exists row.
    split; [apply elem_of_app; by left | done].
Qed.

Lemma batch_top_row (userId : string) syncToken (records : list SyncRecord) w o w'
  (entityType entityId : string) :
  batch userId syncToken records w o w' →
  (∃ row, row ∈ syncLog w ∧ where_entity entityType entityId row = true
          ∧ log_userId row = userId
          ∧ log_version row = entity_version entityType entityId (syncLog w)) →
  ∃ row, row ∈ syncLog w' ∧ where_entity entityType entityId row = true
         ∧ log_userId row = userId
         ∧ log_version row = entity_version entityType entityId (syncLog w').
Proof.
  induction 1 as [|record rest w o1 w1 o2 w2 P B IH]; [done|].
  intros Htop. apply IH.
  destruct (pushed_log _ _ _ _ _ _ P) as [[-> _]|(t & -> & _)]; [done|].
  apply top_row_append. by right.
Qed.

(** X7.  The token returned by a push covers what the push wrote: for
    every record accepted by the push, the highest audit-log version of its
    entity after the push does not exceed the entry of the returned token
    for its entity type.  A later record for that entity, pushed with the
    returned token before anybody else writes, is therefore not in
    conflict. *)
Theorem returned_token_covers_accepted_entities (userId : string)
  (request : PushRequest) w :
  let syncToken := push_syncToken request in
  ∃ response w',
    pushData userId request w = (Ok response, w')
    ∧ ∀ before record after,
        push_records request = before ++ record :: after →
        pushRecord userId syncToken record ([], [])
                   (state_after userId syncToken before w)
        = (Ok ([rec_id record], []),
           state_after userId syncToken (before ++ [record]) w) →
        entity_version (rec_entityType record) (rec_entityId record) (syncLog w')
        ≤ token_version (rec_entityType record) (push_newSyncToken response)
        ∧ ∀ next,
            rec_entityType next = rec_entityType record →
            rec_entityId next = rec_entityId record →
            detectConflict next (push_newSyncToken response) w' = (Ok None, w').
Proof.
  intros syncToken.
  destruct (pushData_run userId request w)
    as (o & w3 & response & w' & B & E & _ & _ & Et & _ & Hl).
  exists response, w'. split; [done|].
  intros before record after Hrecords Hacc.
  fold syncToken in B. rewrite Hrecords in B.
  destruct (batch_split _ _ _ _ _ _ _ _ B)
    as (o1 & w1 & o2 & w2 & o4 & B1 & P2 & B3 & _).
  destruct (batch_state_after _ _ _ _ _ _ B1) as [Hw1 _]. rewrite Hw1 in Hacc.
  pose proof (pushed_pushRecord _ _ _ _ _ _ P2) as E2.
  rewrite Hacc in E2. injection E2 as <- Hw2.
  destruct (pushed_log _ _ _ _ _ _ P2) as [[_ Hnil]|(t & Hlog & _ & _)];
    [discriminate|].
  inversion P2 as [|wa wb Hd Hap Hlog'| | |]; subst.
  destruct (applyChange_ok _ _ _ _ Hap) as (config & Hc & Hm & _).
  assert (∃ row, row ∈ syncLog w' ∧
                 where_entity (rec_entityType record) (rec_entityId record) row = true
                 ∧ log_userId row = userId
                 ∧ log_version row
                   = entity_version (rec_entityType record) (rec_entityId record)
                                    (syncLog w')) as (row & Hin & Hw & Hu & Hv).
  { rewrite Hl. eapply batch_top_row; [exact B3|]. rewrite Hlog.
    apply top_row_append. left. unfold where_entity. simpl.
    by rewrite !String.eqb_refl. }
  destruct (createSyncToken_run userId w3)
    as (token & w4 & Et' & _ & _ & _ & _ & _ & Hv' & _).
  rewrite Et' in Et. injection Et as Htok.
  assert (entity_version (rec_entityType record) (rec_entityId record) (syncLog w')
          ≤ token_version (rec_entityType record) (push_newSyncToken response)) as Hle.
  { unfold token_version. rewrite <- Htok, (Hv' _ (ex_intro _ config Hc)). simpl.
    rewrite <- Hv, <- Hl. apply highest_version_upper. unfold select.
    apply list_elem_of_filter. split; [|done].
    unfold where_type_user. apply andb_prop in Hw as [Ht _].
    by rewrite Ht, Hu, String.eqb_refl. }
  split; [done|]. intros next Ht Hi.
  rewrite <- Ht in Hc.
  rewrite (detectConflict_registered next _ config w' Hc), Ht, Hi.
  by apply Z.ltb_ge in Hle as ->.
Qed.

(** X8.  [resolveConflict] with CLIENT_WINS, or with MERGE and merged data,
    on a record of the audit log: when the change can be applied and the
    generated id is new, the resolution succeeds and appends one row to
    the audit log, under the generated id, for the entity and with the
    action of the record found, holding the data of that record (the merged
    data for MERGE), written by the caller, with a version one above the
    highest of the entity: higher than every earlier version of it. *)
Theorem resolve_appends_a_higher_version (userId : string)
  (resolution : ConflictResolution) (found : SyncLog) (finalData : json) w wa :
  syncLog_findUnique (res_recordId resolution) (syncLog w) = Some found →
  (res_strategy resolution = "CLIENT_WINS" ∧ finalData = log_data found
   ∨ res_strategy resolution = "MERGE"
     ∧ res_mergedData resolution = Some finalData ∧ truthy finalData = true) →
  applyChange (with_data found finalData) userId w = (Ok tt, wa) →
  uuid (uuids w) ∉ log_ids (syncLog w) →
  ∃ w' row,
    resolveConflict userId resolution w = (Ok tt, w')
    ∧ entities w' = entities wa
    ∧ syncLog w' = syncLog w ++ [row]
    ∧ log_id row = uuid (uuids w)
    ∧ log_entityType row = log_entityType found
    ∧ log_entityId row = log_entityId found
    ∧ log_action row = log_action found
    ∧ log_data row = finalData
    ∧ log_userId row = userId
    ∧ log_version row
      = entity_version (log_entityType found) (log_entityId found) (syncLog w) + 1
    ∧ ∀ old, old ∈ syncLog w →
             log_entityType old = log_entityType found →
             log_entityId old = log_entityId found →
             log_version old < log_version row.
Proof.
  intros Hfound Hstrategy Hap Hfresh.
  pose proof (applyChange_log (with_data found finalData) userId w) as [Hl Hu].
  rewrite Hap in Hl, Hu. simpl in Hl, Hu.
  set (wb := {| entities := entities wa; syncLog := syncLog wa;
                dates := dates wa; uuids := S (uuids wa) |}).
  set (record := with_id (with_data found finalData) (uuid (uuids wa))).
  destruct (logSyncRecord_run record userId wb) as (w2 & He & _ & Hrun).
  rewrite decide_False in Hrun by (simpl; by rewrite Hl, Hu).
  destruct Hrun as [Hlog Hrows].
  assert (reapply userId found finalData w = (Ok tt, w2)) as Hre.
  { unfold reapply, bind. rewrite Hap. unfold randomUUID. exact Hlog. }
  exists w2, (new_row record userId (syncLog wb) (clock (dates wb))).
  split.
  { unfold resolveConflict, bind, readLog. rewrite Hfound.
    destruct Hstrategy as [[-> ->]|(-> & -> & ->)]; simpl; exact Hre. }
  simpl in Hrows. rewrite Hl in Hrows. simpl. rewrite Hl, Hu.
  split; [done|]. split; [done|]. repeat split.
  intros old Hin Ht Hi.
  assert (log_version old
          ≤ entity_version (log_entityType found) (log_entityId found) (syncLog w));
    [|lia].
  apply highest_version_upper. unfold select. apply list_elem_of_filter.
  split; [|done]. unfold where_entity. by rewrite Ht, Hi, !String.eqb_refl.
Qed.

(** X9.  [resolveConflict] writes nothing unless it finds the record in
    the audit log and the strategy is CLIENT_WINS, or MERGE with merged
    data: for an unknown record id it throws [Sync record not found]; for
    SERVER_WINS on a known record it returns and leaves everything as it
    is; for MERGE without merged data it throws
    [Merged data required for MERGE strategy]. *)
Theorem resolve_writes_only_for_client_data (userId : string)
  (resolution : ConflictResolution) w :
  (syncLog_findUnique (res_recordId resolution) (syncLog w) = None →
   resolveConflict userId resolution w
   = (Throw (ErrorObj "Sync record not found"), w))
  ∧ (is_Some (syncLog_findUnique (res_recordId resolution) (syncLog w)) →
     res_strategy resolution = "SERVER_WINS" →
     resolveConflict userId resolution w = (Ok tt, w))
  ∧ (is_Some (syncLog_findUnique (res_recordId resolution) (syncLog w)) →
     res_strategy resolution = "MERGE" →
     (∀ merged, res_mergedData resolution = Some merged → truthy merged = false) →
     resolveConflict userId resolution w
     = (Throw (ErrorObj "Merged data required for MERGE strategy"), w))
  ∧ (is_Some (syncLog_findUnique (res_recordId resolution) (syncLog w)) →
     res_strategy resolution ≠ "SERVER_WINS" →
     res_strategy resolution ≠ "CLIENT_WINS" →
     res_strategy resolution ≠ "MERGE" →
     resolveConflict userId resolution w
     = (Throw (ErrorObj ("Unknown resolution strategy: "
                         +:+ res_strategy resolution)), w)).
Proof.
  unfold resolveConflict, bind, readLog.
  destruct (syncLog_findUnique _ _) as [found|].
  - split; [done|]. split; [by intros _ ->|]. split.
    + intros _ -> Hm. simpl. destruct (res_mergedData resolution) as [merged|]; [|done].
      by rewrite (Hm merged eq_refl).
    + intros _ H1 H2 H3.
      apply String.eqb_neq in H1, H2, H3. by rewrite H1, H2, H3.
  - split; [done|]. by repeat split; intros [? ?].
Qed.
End ServerExtras.

(** ** Further properties of the controller *)

Section ControllerExtras.
Context {T : Type} {models : PrismaModels T} {runtime : Runtime}.
Variable toISOString : Z → string.

(** X10.  The push handler serves only the owner of the token: when the
    token of the request names another user it answers 403 and the service
    is not run, so nothing changes.  Otherwise it answers with what the
    service returns, and the counts it puts in the headers
    [X-Accepted-Count] and [X-Rejected-Count] add up to the number of
    submitted records. *)
Theorem push_handler_checks_the_token_owner (userId : string)
  (request : PushRequest) (w : World T) :
  (tok_userId (push_syncToken request) ≠ userId →
   SyncController.pushData toISOString userId (Some request) w
   = (ReplyForbidden "Invalid sync token", w))
  ∧ (tok_userId (push_syncToken request) = userId →
     ∃ response w' stamp,
       pushData userId request w = (Ok response, w')
       ∧ SyncController.pushData toISOString userId (Some request) w
         = (ReplySuccess
              [("X-Sync-Timestamp", stamp);
               ("X-Accepted-Count", index_key (length (push_accepted response)));
               ("X-Rejected-Count", index_key (length (push_rejected response)))]
              response "Data pushed successfully", w')
       ∧ (length (push_accepted response) + length (push_rejected response)
          = length (push_records request))%nat
       ∧ tok_userId (push_newSyncToken response) = userId).
Proof.
  unfold SyncController.pushData. split.
  - intros Hne. apply String.eqb_neq in Hne. by rewrite Hne.
  - intros He. apply String.eqb_eq in He. rewrite He. simpl.
    destruct (pushData_run userId request w)
      as (o & w1 & response & w' & B & E & Ha & Hr & Et & _).
    destruct (batch_counts _ _ _ _ _ _ B) as [Hlen _].
    destruct (createSyncToken_run userId w1)
      as (token & w2 & Et' & _ & _ & _ & Hu & _).
    rewrite Et' in Et. injection Et as Htok.
    exists response, w', (toISOString (push_serverTimestamp response)).
    rewrite E. split; [done|]. split; [done|].
    split; [by rewrite Ha, Hr | by rewrite <- Htok].
Qed.

(** X11.  The resolve handler answers only when the service returns: for
    a record id that is not in the audit log, the case of every record that
    a push rejected, the service throws, the handler sends no reply, and
    nothing is written. *)
Theorem resolve_handler_is_silent_on_failure (userId : string)
  (resolution : ConflictResolution) (w : World T) :
  (res_recordId resolution ∉ log_ids (syncLog w) →
   SyncController.resolveConflict userId (Some resolution) w = (NoReply, w))
  ∧ (∀ reply w',
       SyncController.resolveConflict userId (Some resolution) w = (reply, w') →
       (reply = ReplySuccess [] tt "Conflict resolved successfully"
        ∧ resolveConflict userId resolution w = (Ok tt, w'))
       ∨ (reply = NoReply
          ∧ ∃ e, resolveConflict userId resolution w = (Throw e, w'))).
Proof.
  unfold SyncController.resolveConflict. split.
  - intros Hn. by rewrite (resolveConflict_not_found userId resolution w Hn).
  - intros reply w' E.
    destruct (resolveConflict userId resolution w) as [[[]|e] w2];
      injection E as <- <-; [left | right]; eauto.
Qed.
End ControllerExtras.

(** ** Further properties of the client *)

Section ClientExtras.
Context {runtime : Runtime}.
Variable localUser : option string.














End ClientExtras.

(** ** Further properties of the network monitor *)

Section MonitorExtras.
Context {runtime : Runtime}.
Variable maxRetries : nat.
Variable checkConnectionQuality : nat → bool * bool.
Variable getConnectionType : string.

Lemma total_wait_app (xs ys : list NetEvent) :
  useNetworkStatus.total_wait (xs ++ ys)
  = useNetworkStatus.total_wait xs + useNetworkStatus.total_wait ys.
Proof.
  unfold useNetworkStatus.total_wait.
  induction xs as [|[ms|n b] xs IH]; simpl; lia.
Qed.

Lemma delay_bounds (attempt : nat) :
  1000 ≤ delay attempt ≤ 30000 ∧ delay attempt ≤ delay (S attempt).
Proof.
  unfold delay.
  pose proof (Z.pow_pos_nonneg 2 (Z.of_nat attempt)).
  pose proof (Z.pow_le_mono_r 2 (Z.of_nat attempt) (Z.of_nat (S attempt))).
  lia.
Qed.

Lemma total_wait_failed (attempt n : nat) :
  let events := flat_map failed_attempt (seq attempt n) in
  1000 * Z.of_nat n ≤ useNetworkStatus.total_wait events ≤ 30000 * Z.of_nat n
  ∧ ((attempt + n ≤ 5)%nat →
     useNetworkStatus.total_wait events
     = 1000 * (2 ^ Z.of_nat (attempt + n) - 2 ^ Z.of_nat attempt)).
Proof.
  revert attempt. induction n as [|n IH]; intros attempt.
  - cbv zeta. simpl. split; [lia|]. intros _. rewrite Nat.add_0_r. lia.
  - cbv zeta. cbn [seq flat_map]. rewrite total_wait_app.
    destruct (IH (S attempt)) as [Hb He].
    assert (useNetworkStatus.total_wait (failed_attempt attempt) = delay attempt) as ->.
    { unfold useNetworkStatus.total_wait, failed_attempt. simpl. lia. }
    pose proof (delay_bounds attempt) as [Hd _]. set (rest := useNetworkStatus.total_wait _) in *. clearbody rest.
    rewrite Nat2Z.inj_succ. split; [lia|].
    intros Hle. rewrite He by lia.
    rewrite (proj1 (proj2 (delay_values attempt))) by lia.
    replace (S attempt + n)%nat with (attempt + S n)%nat by lia.
    replace (Z.of_nat (S attempt)) with (Z.of_nat attempt + 1) by lia.
    rewrite Z.pow_add_r by lia. lia.
Qed.

Lemma retryConnection_exhausted (attempt : nat) (prev : NetworkStatus) (d : nat) :
  (attempt ≤ maxRetries)%nat →
  (∀ n, (attempt ≤ n < maxRetries)%nat → (checkConnectionQuality n).1 = false) →
  retryConnection maxRetries checkConnectionQuality getConnectionType attempt prev d
  = (flat_map failed_attempt (seq attempt (maxRetries - attempt)),
     set_retryAttempts maxRetries prev, d).
Proof.
  funelim (retryConnection maxRetries checkConnectionQuality getConnectionType
             attempt prev d); intros Hle Hall.
  - assert (attempt = maxRetries) as -> by lia.
    by rewrite Nat.sub_diag.
  - specialize (Hall attempt). rewrite Heq in Hall. simpl in Hall.
    discriminate Hall. lia.
  - rewrite H by (try lia; intros; apply Hall; lia).
    replace (maxRetries - attempt)%nat with (S (maxRetries - S attempt)) by lia.
    done.
Qed.

Lemma probe_count_app (xs ys : list NetEvent) :
  probe_count (xs ++ ys) = (probe_count xs + probe_count ys)%nat.
Proof. unfold probe_count. by rewrite filter_app, length_app. Qed.

(** X18.  The time the reconnection loop spends waiting: between one and
    thirty seconds for each probe it makes, hence at most thirty seconds
    times [maxRetries]; when every probe fails and [maxRetries] is at most
    5, exactly [1000 * (2^maxRetries - 1)] milliseconds (7 seconds for the
    default of 3 attempts). *)
Theorem reconnection_wait_is_bounded (prev : NetworkStatus) (d : nat) :
  ∃ events final d',
    retryConnection maxRetries checkConnectionQuality getConnectionType 0 prev d
    = (events, final, d')
    ∧ 1000 * Z.of_nat (probe_count events)
      ≤ useNetworkStatus.total_wait events
      ≤ 30000 * Z.of_nat (probe_count events)
    ∧ useNetworkStatus.total_wait events ≤ 30000 * Z.of_nat maxRetries
    ∧ ((∀ n, (n < maxRetries)%nat → (checkConnectionQuality n).1 = false) →
       (maxRetries ≤ 5)%nat →
       useNetworkStatus.total_wait events = 1000 * (2 ^ Z.of_nat maxRetries - 1)).
Proof.
  destruct (retryConnection_from maxRetries checkConnectionQuality getConnectionType
              0 prev d) as (j & events & final & d' & E & Hj & Hoff & Hend); [lia|].
  exists events, final, d'. split; [done|]. rewrite Nat.sub_0_r in Hend.
  destruct (total_wait_failed 0 j) as [Hb He].
  pose proof (probe_count_failed 0 j) as Hc.
  pose proof (delay_bounds j) as [Hd _].
  destruct Hend as [(Hlt & Hon & -> & _)|(-> & -> & _)].
  - rewrite total_wait_app, probe_count_app, Hc.
    assert (useNetworkStatus.total_wait [Wait (delay j); Probe j true] = delay j) as ->.
    { unfold useNetworkStatus.total_wait. simpl. lia. }
    assert (probe_count [Wait (delay j); Probe j true] = 1%nat) as -> by reflexivity.
    split; [lia|]. split; [lia|].
    intros Hall. rewrite (Hall j Hlt) in Hon. done.
  - rewrite Hc. split; [done|]. split; [lia|].
    intros _ Hle. rewrite (He Hle). simpl. lia.
Qed.

(** X19.  The delay before an attempt is at least one second and at most
    thirty, it never decreases from one attempt to the next, it doubles
    from 1 s up to 16 s over the attempts 0 to 4 and is 30 s from attempt 5
    on. *)
Theorem delay_grows_up_to_the_cap (attempt : nat) :
  1000 ≤ delay attempt ≤ 30000
  ∧ delay attempt ≤ delay (S attempt)
  ∧ ((attempt < 4)%nat → delay (S attempt) = 2 * delay attempt)
  ∧ ((attempt ≤ 4)%nat → delay attempt = 1000 * 2 ^ Z.of_nat attempt)
  ∧ ((5 ≤ attempt)%nat → delay attempt = 30000).
Proof.
  destruct (delay_bounds attempt) as [Hb Hm].
  destruct (delay_values attempt) as (_ & Hlow & Hhigh).
  split; [done|]. split; [done|]. split; [|done].
  intros Hlt. rewrite (proj1 (proj2 (delay_values (S attempt)))) by lia.
  rewrite Hlow by lia.
  replace (Z.of_nat (S attempt)) with (Z.of_nat attempt + 1) by lia.
  rewrite Z.pow_add_r by lia. lia.
Qed.

(** X20.  When the loop started by an offline event ends, there is
    nothing left to retry: [canRetry] is false.  Either the server was
    reached, and the state is online with [retryAttempts = 0]; or every one
    of the [maxRetries] probes failed, and the state is offline with
    [retryAttempts = maxRetries]. *)
Theorem offline_loop_ends_with_nothing_to_retry (prev : NetworkStatus) (d : nat) :
  ∃ events final d',
    useNetworkStatus.handleOffline maxRetries checkConnectionQuality
      getConnectionType prev d = (events, final, d')
    ∧ useNetworkStatus.canRetry maxRetries final = false
    ∧ (isOnline final = true
       ∧ retryAttempts final = 0%nat
       ∧ useNetworkStatus.isRetrying final = false
       ∧ (∃ j, (j < maxRetries)%nat ∧ (checkConnectionQuality j).1 = true)
       ∨ isOnline final = false
         ∧ retryAttempts final = maxRetries
         ∧ useNetworkStatus.isRetrying final = (0 <? maxRetries)%nat
         ∧ ∀ n, (n < maxRetries)%nat → (checkConnectionQuality n).1 = false).
Proof.
  unfold useNetworkStatus.handleOffline.
  destruct (retryConnection_from maxRetries checkConnectionQuality getConnectionType 0
              {| isOnline := false; isSlowConnection := true;
                 connectionType := connectionType prev;
                 lastOnlineAt := lastOnlineAt prev;
                 retryAttempts := retryAttempts prev |} d)
    as (j & events & final & d' & E & Hj & Hoff & Hend); [lia|].
  exists events, final, d'. split; [done|].
  unfold useNetworkStatus.canRetry, useNetworkStatus.isRetrying.
  destruct Hend as [(Hlt & Hon & _ & -> & ->)|(-> & _ & Ho & ->)].
  - split; [done|]. left. repeat split. by exists j.
  - simpl in Ho. rewrite Ho. simpl. rewrite Nat.ltb_irrefl. split; [done|].
    right. repeat split. intros n Hn. apply Hoff. lia.
Qed.

(** X21.  A manual retry after an exhausted loop: the counter is back to
    0, so that, when the probe of the manual retry fails too and
    [maxRetries] is positive, the state is offline, [isRetrying] is false
    and [canRetry] is true again; when it succeeds the state is online with
    the time of the probe as [lastOnlineAt]. *)
Theorem manual_retry_after_exhaustion (prev : NetworkStatus) (d : nat)
  (probe : bool * bool) (connType : string) :
  (∀ n, (n < maxRetries)%nat → (checkConnectionQuality n).1 = false) →
  (0 < maxRetries)%nat →
  ∃ events final d',
    useNetworkStatus.handleOffline maxRetries checkConnectionQuality
      getConnectionType prev d = (events, final, d')
    ∧ useNetworkStatus.canRetry maxRetries final = false
    ∧ useNetworkStatus.isRetrying final = true
    ∧ let '(online, next, d'') := useNetworkStatus.manualRetry probe connType final d' in
      online = probe.1
      ∧ isOnline next = probe.1
      ∧ retryAttempts next = 0%nat
      ∧ useNetworkStatus.isRetrying next = false
      ∧ useNetworkStatus.canRetry maxRetries next = negb probe.1
      ∧ lastOnlineAt next
        = (if probe.1 then Some (clock d') else lastOnlineAt prev).
Proof.
  intros Hall Hpos.
  unfold useNetworkStatus.handleOffline.
  rewrite retryConnection_exhausted by (try lia; intros; apply Hall; lia).
  eexists _, _, _. split; [reflexivity|].
  unfold useNetworkStatus.canRetry, useNetworkStatus.isRetrying. simpl.
  rewrite Nat.ltb_irrefl.
  split; [done|]. split; [by apply Nat.ltb_lt|].
  unfold useNetworkStatus.manualRetry. destruct probe as [online slow]. simpl.
  repeat split.
  destruct online; simpl; [done|]. by apply Nat.ltb_lt.
Qed.

(** X22.  The text shown for the connection: [Offline] exactly when the
    state is offline; when online, a slow connection is reported as
    [Slow Connection] whatever its type, and [Fast Connection] is shown
    exactly for a connection of type 4g that is not slow. *)
Theorem connection_quality_text (networkStatus : NetworkStatus) :
  let text := useNetworkStatus.getConnectionQualityText networkStatus in
  (text = "Offline" ↔ isOnline networkStatus = false)
  ∧ (isOnline networkStatus = true → isSlowConnection networkStatus = true →
     text = "Slow Connection")
  ∧ (text = "Fast Connection"
     ↔ isOnline networkStatus = true ∧ isSlowConnection networkStatus = false
       ∧ connectionType networkStatus = "4g").
Proof.
  unfold useNetworkStatus.getConnectionQualityText.
  destruct (isOnline networkStatus), (isSlowConnection networkStatus); simpl;
    try (split; [split; done|]; split; [done|]; split; [done | by intros (? & ? & ?)]).
  split; [|split; [done|]].
  - repeat (destruct (String.eqb _ _)); split; done.
  - destruct (String.eqb_spec (connectionType networkStatus) "4g") as [->|Hne].
    + split; done.
    + repeat (destruct (String.eqb _ _)); split; try done; by intros (_ & _ & ?).
Qed.
End MonitorExtras.

(** ** Push and pull together *)

Section ExchangeExtras.
Context {T : Type} {models : PrismaModels T} {runtime : Runtime}.
Implicit Types (w : World T) (record : SyncRecord) (syncToken : SyncToken).

Lemma pushed_stamp (userId : string) syncToken record w o w' :
  pushed userId syncToken record w o w' →
  (syncLog w' = syncLog w ∧ o.1 = [])
  ∨ (∃ k, syncLog w' = syncLog w ++ [new_row record userId (syncLog w) (clock k)]
          ∧ o.1 = [rec_id record]
          ∧ registered (rec_entityType record)).
Proof.
  intros P.
  destruct P as [c Hd|wa wb Hd Hap Hlog|e Hd|e wa Hd Hap|e wa wb Hd Hap Hlog];
    try (left; split; done).
  - right. pose proof (applyChange_log record userId w) as [Hl _].
    rewrite Hap in Hl. simpl in Hl.
    destruct (applyChange_ok _ _ _ _ Hap) as (config & Hc & _).
    destruct (logSyncRecord_run record userId wa) as (w2 & _ & _ & Hrun).
    destruct (decide _) as [Hin|Hn]; destruct Hrun as [E Hlog'];
      rewrite Hlog in E; inversion E; subst.
    exists (dates wa). rewrite Hlog', Hl. split; [done|]. split; [done|].
    by exists config.
  - left. pose proof (applyChange_log record userId w) as [Hl _].
    rewrite Hap in Hl. done.
  - left. pose proof (applyChange_log record userId w) as [Hl _].
    rewrite Hap in Hl. simpl in Hl.
    destruct (logSyncRecord_run record userId wa) as (w2 & _ & _ & Hrun).
    destruct (decide _) as [Hin|Hn]; destruct Hrun as [E Hlog'];
      rewrite Hlog in E; inversion E; subst.
    split; [congruence | done].
Qed.

Lemma batch_stamped (userId : string) syncToken (records : list SyncRecord) w o w' :
  batch userId syncToken records w o w' →
  ∃ rows,
    syncLog w' = syncLog w ++ rows
    ∧ log_ids rows = o.1
    ∧ Forall (λ row, log_userId row = userId
                     ∧ registered (log_entityType row)
                     ∧ ∃ k, log_timestamp row = clock k) rows.
Proof.
  induction 1 as [w|record rest w o1 w1 o2 w2 P B (rows & Hl & Hids & Hall)].
  - exists []. by rewrite app_nil_r.
  - destruct (pushed_stamp _ _ _ _ _ _ P) as [[E Hnil]|(k & E & Hone & Hreg)].
    + exists rows. split; [by rewrite Hl, E|]. split; [by simpl; rewrite Hnil|]. done.
    + exists (new_row record userId (syncLog w) (clock k) :: rows).
      split; [by rewrite Hl, E, <- app_assoc|].
      split; [by simpl; rewrite Hids, Hone|].
      constructor; [|done]. simpl. split; [done|]. split; [done|]. by exists k.
Qed.

Lemma select_others (userId entityType : string) (since : Z) (rows mine : list SyncLog) :
  Forall (λ row, log_userId row = userId) mine →
  select (where_pull entityType since userId) (rows ++ mine)
  = select (where_pull entityType since userId) rows.
Proof.
  intros Hmine. rewrite select_app.
  assert (select (where_pull entityType since userId) mine = []) as ->;
    [|by rewrite app_nil_r].
  induction Hmine as [|row mine Hu _ IH]; [done|].
  unfold select in *. rewrite filter_cons_False; [done|].
  unfold where_pull. rewrite Hu, String.eqb_refl, andb_false_r. done.
Qed.

Lemma map_flat_map {A B C} (f : B → C) (g : A → list B) (xs : list A) :
  map f (flat_map g xs) = flat_map (λ x, map f (g x)) xs.
Proof. induction xs as [|x xs IH]; simpl; [done|]. by rewrite map_app, IH. Qed.

Lemma page_ids (userId : string) (since : Z) (limit : nat) (t : T)
  (rows : list SyncLog) (entityType : string) :
  map rec_id (page_of userId since limit t rows entityType)
  = match map_get entityType entityConfigs with
    | Some _ =>
        log_ids (syncLog_findMany (where_pull entityType since userId)
                                  log_timestamp limit rows)
    | None => []
    end.
Proof.
  unfold page_of, log_ids. destruct (map_get entityType entityConfigs); [|done].
  rewrite map_map. done.
Qed.

Lemma pullData_hasMore (userId : string) (request : PullRequest) w :
  (∀ entityType config,
     map_get entityType entityConfigs = Some config →
     has_model (cfg_tableName config) = true) →
  ∃ response w',
    pullData userId request w = (Ok response, w')
    ∧ pull_hasMore response
      = Nat.eqb (length (pull_records response)) (default 100%nat (pull_limit request)).
Proof.
  intros Hm. unfold pullData. unfold bind at 1.
  rewrite (pullTypes_pages _ _ _ _ [] w Hm).
  destruct (createSyncToken_run userId w) as (token & w2 & Et & _).
  unfold bind at 1. rewrite Et. unfold bind, newDate, ret.
  eexists _, _. split; [reflexivity|]. done.
Qed.

(** X23.  What a user pushes is not pulled back by that user: a pull, a
    push and a second pull with the same request, all by one user, give a
    second page with the ids of the first, in the same order and with the
    same [hasMore], and none of the accepted ids is in it. *)
Theorem own_push_is_not_pulled_back (userId : string) (pullRequest : PullRequest)
  (pushRequest : PushRequest) w :
  (∀ entityType config,
     map_get entityType entityConfigs = Some config →
     has_model (cfg_tableName config) = true) →
  ∃ first w1 pushResponse w2 second w3,
    pullData userId pullRequest w = (Ok first, w1)
    ∧ pushData userId pushRequest w1 = (Ok pushResponse, w2)
    ∧ pullData userId pullRequest w2 = (Ok second, w3)
    ∧ map rec_id (pull_records second) = map rec_id (pull_records first)
    ∧ pull_hasMore second = pull_hasMore first
    ∧ ∀ id, id ∈ push_accepted pushResponse →
            id ∉ map rec_id (pull_records second).
Proof.
  intros Hm.
  destruct (pullData_pages userId pullRequest w Hm)
    as (first & w1 & E1 & He1 & Hl1 & _ & Hr1).
  destruct (pushData_run userId pushRequest w1)
    as (o & wm & pushResponse & w2 & B & E2 & Ha & _ & _ & _ & Hl2).
  destruct (batch_stamped _ _ _ _ _ _ B) as (rows & Hlog & Hids & Hall).
  destruct (batch_log _ _ _ _ _ _ B) as (_ & _ & _ & Hfresh).
  destruct (pullData_pages userId pullRequest w2 Hm)
    as (second & w3 & E3 & _ & _ & _ & Hr3).
  destruct (pullData_hasMore userId pullRequest w Hm) as (r & w' & E & Hh1).
  rewrite E1 in E. injection E as <- <-.
  destruct (pullData_hasMore userId pullRequest w2 Hm) as (r & w' & E & Hh3).
  rewrite E3 in E. injection E as <- <-.
  exists first, w1, pushResponse, w2, second, w3.
  split; [done|]. split; [done|]. split; [done|].
  rewrite Hl2, Hlog, Hl1 in Hr3.
  assert (Forall (λ row, log_userId row = userId) rows) as Hmine.
  { eapply Forall_impl; [exact Hall|]. by intros row (? & _). }
  assert (map rec_id (pull_records second) = map rec_id (pull_records first)) as Hsame.
  { rewrite Hr3, Hr1, !map_flat_map. apply flat_map_ext. intros entityType.
    rewrite !page_ids. destruct (map_get entityType entityConfigs); [|done].
    unfold syncLog_findMany. by rewrite select_others. }
  split; [done|]. split.
  { rewrite Hh3, Hh1. rewrite <- (length_map rec_id (pull_records second)).
    by rewrite Hsame, length_map. }
  intros id Hacc Hin.
  rewrite Ha, <- Hids in Hacc.
  apply list_elem_of_fmap in Hin as (r & -> & Hin).
  rewrite Hr3 in Hin. apply elem_of_flat_map in Hin as (entityType & _ & Hin).
  apply page_of_rows in Hin as (row & config & _ & Hrow & Hp & ->). simpl in Hacc.
  assert (log_userId row ≠ userId) as Hother.
  { unfold where_pull in Hp. apply andb_prop in Hp as [_ Hp].
    apply negb_true_iff in Hp. by apply String.eqb_neq in Hp. }
  apply elem_of_app in Hrow as [Hold|Hnew].
  - apply (Hfresh (log_id row)); [by rewrite <- Hids|].
    rewrite Hl1. apply list_elem_of_fmap. by exists row.
  - apply Hother. by apply (proj1 (Forall_forall _ _) Hmine).
Qed.

(** X24.  What a user pushes reaches the other users: every accepted id
    is the id of a row of the audit log written in the name of the pushing
    user, and a pull by another user, asking for changes since an instant
    before the server's clock readings, delivers it when the entity type
    of the row is requested and the rows of that type that match the pull
    are not more than the limit. *)
Theorem accepted_record_reaches_other_users (userId other : string)
  (pushRequest : PushRequest) (pullRequest : PullRequest) w :
  (∀ entityType config,
     map_get entityType entityConfigs = Some config →
     has_model (cfg_tableName config) = true) →
  other ≠ userId →
  (∀ k, default 0 (pull_lastSyncTimestamp pullRequest) < clock k) →
  let since := default 0 (pull_lastSyncTimestamp pullRequest) in
  let limit := default 100%nat (pull_limit pullRequest) in
  let entityTypes := default (map fst entityConfigs) (pull_entityTypes pullRequest) in
  ∃ pushResponse w1 pullResponse w2,
    pushData userId pushRequest w = (Ok pushResponse, w1)
    ∧ pullData other pullRequest w1 = (Ok pullResponse, w2)
    ∧ ∀ id, id ∈ push_accepted pushResponse →
        ∃ row,
          row ∈ syncLog w1 ∧ log_id row = id ∧ log_userId row = userId
          ∧ (log_entityType row ∈ entityTypes →
             (length (select (where_pull (log_entityType row) since other) (syncLog w1))
              ≤ limit)%nat →
             id ∈ map rec_id (pull_records pullResponse)).
Proof.
  intros Hm Hne Hclock since limit entityTypes.
  destruct (pushData_run userId pushRequest w)
    as (o & wm & pushResponse & w1 & B & E1 & Ha & _ & _ & _ & Hl1).
  destruct (batch_stamped _ _ _ _ _ _ B) as (rows & Hlog & Hids & Hall).
  destruct (pullData_pages other pullRequest w1 Hm)
    as (pullResponse & w2 & E2 & _ & _ & _ & Hr).
  exists pushResponse, w1, pullResponse, w2. split; [done|]. split; [done|].
  intros id Hacc. rewrite Ha, <- Hids in Hacc.
  apply list_elem_of_fmap in Hacc as (row & -> & Hrow).
  pose proof (proj1 (Forall_forall _ _) Hall row Hrow) as (Hu & [config Hc] & k & Hk).
  assert (row ∈ syncLog w1) as Hin.
  { rewrite Hl1, Hlog. apply elem_of_app. by right. }
  exists row. split; [done|]. split; [done|]. split; [done|].
  intros Hty Hlen. apply list_elem_of_fmap.
  exists (record_of config (entities w1) row). split; [done|].
  rewrite Hr. apply elem_of_flat_map. exists (log_entityType row).
  split; [done|]. unfold page_of. rewrite Hc.
  apply list_elem_of_fmap. exists row. split; [done|].
  unfold syncLog_findMany.
  destruct (order_asc_sorts log_timestamp
              (select (where_pull (log_entityType row)
                                  (default 0 (pull_lastSyncTimestamp pullRequest)) other)
                      (syncLog w1))) as [_ Hperm].
  rewrite take_ge by (rewrite Hperm; exact Hlen).
  rewrite Hperm. unfold select. apply list_elem_of_filter. split; [|done].
  unfold where_pull. rewrite String.eqb_refl, Hk. simpl.
  apply andb_true_intro. split.
  - apply Z.ltb_lt. apply Hclock.
  - apply negb_true_iff. apply String.eqb_neq. congruence.
Qed.
End ExchangeExtras.

(** ** The client and the service together *)

Section EndToEndExtras.
Context {T : Type} {models : PrismaModels T} {runtime : Runtime}.
Variable toISOString : Z → string.
Implicit Types (w : World T) (record : SyncRecord) (syncToken : SyncToken).




(** X26.  The handlers of the two reading routes: when every registered
    table has a model, the pull handler answers with the response of the
    service, its [hasMore] in the header [X-Has-More], and leaves the
    entities and the audit log as they are; the status handler always
    answers, and leaves the state as it is. *)
Theorem read_handlers_answer_and_only_read (userId : string)
  (pullRequest : PullRequest) w :
  (∀ entityType config,
     map_get entityType entityConfigs = Some config →
     has_model (cfg_tableName config) = true) →
  (∃ response w',
     pullData userId pullRequest w = (Ok response, w')
     ∧ SyncController.pullData toISOString userId (Some pullRequest) w
       = (ReplySuccess
            [("X-Sync-Timestamp", toISOString (pull_serverTimestamp response));
             ("X-Has-More",
              if (length (pull_records response)
                  =? default 100 (pull_limit pullRequest))%nat
              then "true" else "false")]
            response "Data pulled successfully", w')
     ∧ entities w' = entities w
     ∧ syncLog w' = syncLog w)
  ∧ ∃ status,
      SyncController.getSyncStatus userId w
      = (ReplySuccess [] status "Sync status retrieved successfully", w)
      ∧ st_userId status = userId.
Proof.
  intros Hm. split.
  - destruct (pullData_pages userId pullRequest w Hm)
      as (response & w' & E & He & Hl & _).
    destruct (pullData_hasMore userId pullRequest w Hm) as (r & w2 & E2 & Hh).
    rewrite E in E2. injection E2 as <- <-.
    exists response, w'. split; [done|].
    unfold SyncController.pullData. rewrite E, Hh. done.
  - eexists. unfold SyncController.getSyncStatus. split; reflexivity.
Qed.
End EndToEndExtras.

(** ** The further properties on concrete inputs *)

Section ConcreteExtras.
#[local] Existing Instance test_runtime.

Lemma pull_delivers_rows_of_others_witness :
  (∀ entityType config,
     map_get entityType entityConfigs = Some config →
     has_model (cfg_tableName config) = true)
  ∧ ∃ response w',
      pullData "u1" pull_everything mixed_world = (Ok response, w')
      ∧ syncLog w' = syncLog mixed_world
      ∧ ∀ r, r ∈ pull_records response → rec_userId r ≠ "u1".
Proof.
  split; [exact mem_models_exist|].
  destruct (pull_delivers_rows_of_others "u1" pull_everything mixed_world
              mem_models_exist) as (response & w' & E & _ & Hl & Hall).
  exists response, w'. split; [exact E|]. split; [exact Hl|].
  intros r Hr. destruct (Hall r Hr) as (row & config & _ & _ & -> & _ & Hu & _).
  exact Hu.
Defined.

Lemma pull_page_size_witness :
  (∀ entityType config,
     map_get entityType entityConfigs = Some config →
     has_model (cfg_tableName config) = true)
  ∧ ∃ response w',
      pullData "u1" {| pull_lastSyncTimestamp := None;
                       pull_entityTypes := Some ["task"; "project"];
                       pull_limit := Some 1%nat |} mixed_world
      = (Ok response, w')
      ∧ (length (pull_records response) ≤ 2)%nat.
Proof.
  split; [exact mem_models_exist|].
  destruct (pull_page_size "u1" {| pull_lastSyncTimestamp := None;
                                   pull_entityTypes := Some ["task"; "project"];
                                   pull_limit := Some 1%nat |} mixed_world
              mem_models_exist) as (response & w' & E & Hsome & _).
  exists response, w'. split; [exact E|]. exact (Hsome _ eq_refl).
Defined.

Lemma pull_data_hides_excluded_fields_witness :
  (∀ entityType config,
     map_get entityType entityConfigs = Some config →
     has_model (cfg_tableName config) = true)
  ∧ ∃ response w',
      pullData "u1" pull_everything user_world = (Ok response, w')
      ∧ map rec_entityType (pull_records response) = ["user"]
      ∧ ∀ r, r ∈ pull_records response →
             rec_entityType r = "user" →
             ∀ fields, rec_data r = JObj fields →
                       obj_get "password" fields = None
                       ∧ obj_get "refreshToken" fields = None.
Proof.
  split; [exact mem_models_exist|].
  destruct (pull_data_hides_excluded_fields "u1" pull_everything user_world
              mem_models_exist) as (response & w' & E & Hall).
  exists response, w'. split; [exact E|]. split.
  - vm_compute in E. injection E as Hresp _. by subst response.
  - intros r Hr. destruct (Hall r Hr) as (_ & _ & Huser). exact Huser.
Defined.

Lemma unregistered_type_is_rejected_witness :
  let record := sync_record "r1" "message" "m1" "CREATE" (JObj [("text", JStr "hi")]) in
  map_get (rec_entityType record) entityConfigs = None
  ∧ ∃ response w',
      pushData "u1" {| push_records := [record]; push_syncToken := token_of "u1" [] |}
               empty_world = (Ok response, w')
      ∧ {| rej_id := "r1";
           rej_reason := "Entity type message not configured";
           rej_conflictData := None |} ∈ push_rejected response.
Proof.
  split; [reflexivity|].
  destruct (unregistered_type_is_rejected "u1" (token_of "u1" []) [] []
              (sync_record "r1" "message" "m1" "CREATE" (JObj [("text", JStr "hi")]))
              empty_world eq_refl) as (response & w' & E & Hin & _).
  exists response, w'. split; [exact E | exact Hin].
Defined.
Lemma resolve_appends_a_higher_version_witness :
  let resolution := {| res_recordId := "a5"; res_strategy := "CLIENT_WINS";
                       res_mergedData := None |} in
  let found := log_row "a5" "task" "t1" "UPDATE" "u2" 50 5
                       (JObj [("title", JStr "server")]) in
  syncLog_findUnique "a5" (syncLog task_world) = Some found
  ∧ (uuid (uuids task_world) ∉ log_ids (syncLog task_world))
  ∧ ∃ w' row,
      resolveConflict "u1" resolution task_world = (Ok tt, w')
      ∧ syncLog w' = syncLog task_world ++ [row]
      ∧ log_userId row = "u1"
      ∧ log_version row = 6.
Proof.
  intros resolution found.
  assert (syncLog_findUnique (res_recordId resolution) (syncLog task_world) = Some found)
    as Hfound by reflexivity.
  assert (uuid (uuids task_world) ∉ log_ids (syncLog task_world)) as Hfresh.
  { intros Hin. vm_compute in Hin.
    repeat (apply elem_of_cons in Hin as [Hin|Hin]; [discriminate Hin|]).
    by apply elem_of_nil in Hin. }
  assert (applyChange (with_data found (log_data found)) "u1" task_world
          = (Ok tt, (applyChange (with_data found (log_data found)) "u1" task_world).2))
    as Happly by (vm_compute; reflexivity).
  split; [exact Hfound|]. split; [exact Hfresh|].
  destruct (resolve_appends_a_higher_version "u1" resolution found (log_data found)
              task_world (applyChange (with_data found (log_data found)) "u1" task_world).2
              Hfound (or_introl (conj eq_refl eq_refl)) Happly Hfresh)
    as (w' & row & E & _ & Hl & _ & _ & _ & _ & _ & Hu & Hv & _).
  exists w', row. split; [exact E|]. split; [exact Hl|]. split; [exact Hu|].
  rewrite Hv. reflexivity.
Defined.






Lemma manual_retry_after_exhaustion_witness :
  (∀ n, (n < 3)%nat → (unreachable n).1 = false)
  ∧ (0 < 3)%nat
  ∧ ∃ events final d',
      useNetworkStatus.handleOffline 3 unreachable "4g" online_status 0
      = (events, final, d')
      ∧ useNetworkStatus.canRetry 3 final = false
      ∧ useNetworkStatus.isRetrying final = true
      ∧ useNetworkStatus.canRetry 3
          (useNetworkStatus.manualRetry (false, true) "4g" final d').1.2 = true.
Proof.
  assert (∀ n, (n < 3)%nat → (unreachable n).1 = false) as Hdown by reflexivity.
  assert (0 < 3)%nat as Hpos by lia.
  split; [exact Hdown|]. split; [exact Hpos|].
  destruct (manual_retry_after_exhaustion 3 unreachable "4g" online_status 0
              (false, true) "4g" Hdown Hpos)
    as (events & final & d' & E & Hc & Hr & Hnext).
  exists events, final, d'. split; [exact E|]. split; [exact Hc|]. split; [exact Hr|].
  destruct (useNetworkStatus.manualRetry (false, true) "4g" final d')
    as [[online next] d''].
  destruct Hnext as (_ & _ & _ & _ & Hcan & _). exact Hcan.
Defined.

Lemma own_push_is_not_pulled_back_witness :
  let pushRequest :=
    {| push_records := [sync_record "r1" "task" "t2" "CREATE" (JObj [])];
       push_syncToken := token_of "u1" [("task", 5)] |} in
  (∀ entityType config,
     map_get entityType entityConfigs = Some config →
     has_model (cfg_tableName config) = true)
  ∧ ∃ first w1 pushResponse w2 second w3,
      pullData "u1" pull_everything task_world = (Ok first, w1)
      ∧ pushData "u1" pushRequest w1 = (Ok pushResponse, w2)
      ∧ pullData "u1" pull_everything w2 = (Ok second, w3)
      ∧ push_accepted pushResponse = ["r1"]
      ∧ map rec_id (pull_records second) = map rec_id (pull_records first)
      ∧ ("r1" ∉ map rec_id (pull_records second)).
Proof.
  intros pushRequest. split; [exact mem_models_exist|].
  destruct (own_push_is_not_pulled_back "u1" pull_everything pushRequest task_world
              mem_models_exist)
    as (first & w1 & pushResponse & w2 & second & w3 & E1 & E2 & E3 & Hids & _ & Hnot).
  assert (push_accepted pushResponse = ["r1"]) as Hacc.
  { vm_compute in E1. injection E1 as _ Hw. subst w1.
    vm_compute in E2. injection E2 as Hp _. by subst pushResponse. }
  exists first, w1, pushResponse, w2, second, w3.
  split; [exact E1|]. split; [exact E2|]. split; [exact E3|].
  split; [exact Hacc|]. split; [exact Hids|].
  apply Hnot. rewrite Hacc. apply list_elem_of_singleton. reflexivity.
Defined.

Lemma accepted_record_reaches_other_users_witness :
  let pushRequest :=
    {| push_records := [sync_record "r1" "task" "t1" "CREATE" (JObj [])];
       push_syncToken := token_of "u1" [] |} in
  (∀ entityType config,
     map_get entityType entityConfigs = Some config →
     has_model (cfg_tableName config) = true)
  ∧ "u2" ≠ "u1"
  ∧ (∀ k, default 0 (pull_lastSyncTimestamp pull_everything) < clock k)
  ∧ ∃ pushResponse w1 pullResponse w2,
      pushData "u1" pushRequest empty_world = (Ok pushResponse, w1)
      ∧ pullData "u2" pull_everything w1 = (Ok pullResponse, w2)
      ∧ push_accepted pushResponse = ["r1"]
      ∧ "r1" ∈ map rec_id (pull_records pullResponse).
Proof.
  intros pushRequest.
  assert ("u2" ≠ "u1") as Hne by discriminate.
  assert (∀ k, default 0 (pull_lastSyncTimestamp pull_everything) < clock k) as Hclock.
  { intros k. simpl. lia. }
  split; [exact mem_models_exist|]. split; [exact Hne|]. split; [exact Hclock|].
  destruct (accepted_record_reaches_other_users "u1" "u2" pushRequest pull_everything
              empty_world mem_models_exist Hne Hclock)
    as (pushResponse & w1 & pullResponse & w2 & E1 & E2 & Hall).
  exists pushResponse, w1, pullResponse, w2.
  split; [exact E1|]. split; [exact E2|].
  vm_compute in E1. injection E1 as Hp Hw. subst pushResponse w1.
  split; [reflexivity|].
  destruct (Hall "r1") as (row & Hin & Hid & _ & Hreach).
  { apply list_elem_of_singleton. reflexivity. }
  apply list_elem_of_singleton in Hin. subst row. apply Hreach.
  - vm_compute. apply elem_of_cons. right. apply elem_of_cons. left. reflexivity.
  - vm_compute. lia.
Defined.


Lemma read_handlers_answer_and_only_read_witness :
  (∀ entityType config,
     map_get entityType entityConfigs = Some config →
     has_model (cfg_tableName config) = true)
  ∧ ∃ headers response w',
      SyncController.pullData (λ _, "") "u1" (Some pull_everything) task_world
      = (ReplySuccess headers response "Data pulled successfully", w')
      ∧ syncLog w' = syncLog task_world.
Proof.
  split; [exact mem_models_exist|].
  destruct (read_handlers_answer_and_only_read (λ _, "") "u1" pull_everything
              task_world mem_models_exist)
    as [(response & w' & _ & E & _ & Hl) _].
  eexists _, response, w'. split; [exact E | exact Hl].
Defined.
End ConcreteExtras.
